(** * kafka-hwsw: the partition-routing demo, producer and consumer

    A shallow embedding of [cmd/producer/main.go] and of the consumer's
    [main.go], and the properties of the event generator, of the two
    send/receive loops and of the summary routine that the design document
    states about them.

    Conventions of the embedding.
    - Go's [int] and [int64] are 64 bits wide (amd64, arm64); they are [Z]
      with the wrap-around written out where the code can reach it.
    - A [time.Time] is the number of nanoseconds since the epoch, a
      [time.Duration] is an [int64] count of nanoseconds.
    - A Go map is a [gmap]; the order in which a [range] statement visits it
      is not a function of the map (the language leaves it unspecified and
      the runtime randomises it), so every routine that ranges over a map
      takes the order the runtime picked as an argument.
    - The logger's output is the list of the messages handed to [log.Printf]
      and [log.Println], oldest first, without the logger's own date prefix.
    - What the outside world decides (the clock, the cluster's answers, which
      ready case a [select] takes) is an explicit input of the run. *)

From Stdlib Require Import ZArith Lia Ascii String.
From stdpp Require Import gmap strings list fin_maps pretty.

Open Scope Z_scope.

(** ** Machine integers and time *)

(** Two's complement wrap-around of an [int64] (and of [int]). *)
Definition wrap64 (z : Z) : Z := (z + 2 ^ 63) `mod` 2 ^ 64 - 2 ^ 63.

Definition time_Second : Z := 1000000000.
Definition time_Millisecond : Z := 1000000.

(** [time.Duration(i) * unit]: a product of two [int64]. *)
Definition duration_mul (i unit : Z) : Z := wrap64 (i * unit).

(** [t.Add(d)]. *)
Definition time_Add (t d : Z) : Z := t + d.

(** The clock as the program sees it: the [n]-th call of [time.Now] from
    here on returns [clk n]. *)
Definition Clock : Type := nat → Z.

Definition time_Now (clk : Clock) : Z * Clock := (clk 0%nat, λ n, clk (S n)).

(** ** Formatting verbs *)

(** [%d] of an integer. *)
Definition fmt_d (z : Z) : string := pretty z.

(** [%v] of a slice: the elements separated by one space, in brackets. *)
Definition fmt_v_slice (elems : list string) : string :=
  "[" +:+ String.concat " " elems +:+ "]".

Definition fmt_v_int32s (l : list Z) : string := fmt_v_slice (fmt_d <$> l).

(** [fmt.Sprintf("%.2f", float64(k)/100)] for the [k] the generator passes,
    [1 <= k <= 1000]: the double nearest to [k/100] printed with two decimals
    is the decimal [k/100] itself. *)
Definition fmt_2f_hundredths (k : Z) : string :=
  fmt_d (k `quot` 100) +:+ "." +:+
  fmt_d ((k `rem` 100) `quot` 10) +:+ fmt_d (k `rem` 10).

(** ** The event generator *)

Record UserEvent := {
  UserID : string;
  EventType : string;
  Timestamp : Z;
  Data : gmap string string
}.

Definition users : list string := ["user-123"; "user-456"; "user-789"].

Definition eventTypes : list string :=
  ["page_view"; "purchase"; "login"; "logout"; "search"; "add_to_cart"].

(** [l[i % len(l)]]; Go's [%] truncates, as [Z.rem] does. *)
Definition cycle (l : list string) (i : Z) : string :=
  default "" (l !! Z.to_nat (i `rem` Z.of_nat (length l))).

(** The body of the generator's loop at index [i], [now] being what
    [time.Now()] returned in this iteration. *)
Definition make_event (i : Z) (now : Z) : UserEvent :=
  let userID := cycle users i in
  let eventType := cycle eventTypes i in
  let data : gmap string string :=
    <["user_agent" := "Mozilla/5.0 (Macintosh; Intel Mac OS X 10_15_7)"]>
    (<["ip_address" := "192.168.1." +:+ fmt_d (i `rem` 254 + 1)]>
    (<["session_id" := "session-" +:+ fmt_d i]> ∅)) in
  let data :=
    if String.eqb eventType "purchase" then
      <["product_id" := "prod-" +:+ fmt_d (i `rem` 100 + 1)]>
      (<["amount" := fmt_2f_hundredths (i `rem` 1000 + 1)]> data)
    else if String.eqb eventType "search" then
      <["query" := "search term " +:+ fmt_d (i + 1)]> data
    else data in
  {| UserID := userID;
     EventType := eventType;
     Timestamp := time_Add now (duration_mul i time_Second);
     Data := data |}.

(** [for i := ...; i < count; i++]: [todo] is the number of iterations left,
    [count - i]. Each iteration reads the clock once. *)
Fixpoint generate_loop (todo : nat) (i : Z) (clk : Clock)
    (events : list UserEvent) : list UserEvent * Clock :=
  match todo with
  | O => (events, clk)
  | S todo' =>
      let '(now, clk') := time_Now clk in
      generate_loop todo' (i + 1) clk' (events ++ [make_event i now])
  end.

Definition generateUserEvents (count : Z) (clk : Clock) : list UserEvent * Clock :=
  generate_loop (Z.to_nat count) 0 clk [].

(** ** Library functions the two programs call *)

(** [strconv.Atoi]: an optional sign, then one or more decimal digits, and a
    value that fits an [int]; anything else is an error ([None]). *)
Definition digit_value (c : ascii) : option Z :=
  let n := Z.of_N (Ascii.N_of_ascii c) in
  if (48 <=? n) && (n <=? 57) then Some (n - 48) else None.

Fixpoint parse_digits (s : string) (acc : Z) : option Z :=
  match s with
  | EmptyString => Some acc
  | String c s' =>
      match digit_value c with
      | Some d => parse_digits s' (acc * 10 + d)
      | None => None
      end
  end.

Definition strconv_Atoi (s : string) : option Z :=
  let '(neg, body) :=
    match s with
    | String "-"%char rest => (true, rest)
    | String "+"%char rest => (false, rest)
    | _ => (false, s)
    end in
  match body with
  | EmptyString => None
  | _ =>
      match parse_digits body 0 with
      | Some n =>
          let n := if neg then - n else n in
          if (- 2 ^ 63 <=? n) && (n <? 2 ^ 63) then Some n else None
      | None => None
      end
  end.

(** [strings.Split(s, sep)] for a separator of one character. *)
Fixpoint strings_Split (s : string) (sep : ascii) : list string :=
  match s with
  | EmptyString => [EmptyString]
  | String c rest =>
      if Ascii.eqb c sep then EmptyString :: strings_Split rest sep
      else match strings_Split rest sep with
           | field :: fields => String c field :: fields
           | [] => [String c EmptyString]
           end
  end.

(** [os.Getenv]: the empty string for a variable that is not set. *)
Definition os_Getenv (env : gmap string string) (key : string) : string :=
  default "" (env !! key).

(** [godotenv.Load()]: the variables of the [.env] file that the environment
    does not have yet are added to it; [dotenv] is [None] when the file cannot
    be read, and then [Load] returns an error ([false]). *)
Definition godotenv_Load (env : gmap string string)
    (dotenv : option (gmap string string)) : gmap string string * bool :=
  match dotenv with
  | Some file => (env ∪ file, true)
  | None => (env, false)
  end.

(** How a process ends. [Waiting]: the schedule given to the run is used up
    and the program is still blocked in its loop. [Unrealisable]: the
    schedule asks for a step the program cannot take. *)
Inductive ExitStatus :=
  | Exited (code : Z)
  | Waiting
  | Unrealisable.

(** The order a [range] over the distribution record, and over a user's set of
    partitions, visits the entries in one call of a summary routine. *)
Record RangeOrder := {
  user_order : list (string * list Z) → list (string * list Z);
  partition_order : string → list Z → list Z
}.

(** A [range] visits every entry once. *)
Definition range_ok (o : RangeOrder) : Prop :=
  (∀ l, user_order o l ≡ₚ l) ∧ (∀ k l, partition_order o k l ≡ₚ l).

(** The order in which [map_to_list] happens to list the entries. *)
Definition listing_order : RangeOrder :=
  {| user_order := λ l, l; partition_order := λ _ l, l |}.

(** The opposite order. *)
Definition reverse_order : RangeOrder :=
  {| user_order := λ l, reverse l; partition_order := λ _ l, reverse l |}.

(** [uniquePartitions[p] = true] for every [p] of [partitions]. *)
Definition uniquePartitions (partitions : list Z) : gmap Z bool :=
  foldl (λ u p, <[p := true]> u) ∅ partitions.

(** [uniqueParts]: the keys of [uniquePartitions] in the order of the inner
    [range]. *)
Definition uniqueParts (o : RangeOrder) (userID : string) (partitions : list Z) : list Z :=
  partition_order o userID (map_to_list (uniquePartitions partitions)).*1.

(** [%v] of a [map[string]interface{}] whose values are strings: the entries
    as [key:value], sorted by key, separated by one space, after [map]. *)
Fixpoint insert_by_key (kv : string * string) (l : list (string * string)) :
    list (string * string) :=
  match l with
  | [] => [kv]
  | kv' :: l' =>
      if String.leb kv.1 kv'.1 then kv :: l else kv' :: insert_by_key kv l'
  end.

Definition fmt_v_map (m : gmap string string) : string :=
  "map" +:+
  fmt_v_slice ((λ kv, kv.1 +:+ ":" +:+ kv.2) <$> foldr insert_by_key [] (map_to_list m)).

(** The double quote character, as a string. *)
Definition dq : string := String (ascii_of_nat 34) EmptyString.

(** * The producer, [cmd/producer/main.go] *)

Module Producer.

Definition getEnv (env : gmap string string) (key defaultValue : string) : string :=
  let value := os_Getenv env key in
  if negb (String.eqb value "") then value else defaultValue.

Definition getEnvAsInt (env : gmap string string) (key : string) (defaultValue : Z) : Z :=
  let value := os_Getenv env key in
  if negb (String.eqb value "") then
    match strconv_Atoi value with
    | Some intValue => intValue
    | None => defaultValue
    end
  else defaultValue.

Definition getBrokers (env : gmap string string) : list string :=
  let brokersStr := getEnv env "KAFKA_BROKERS" "localhost:9092,localhost:9094,localhost:9096" in
  strings_Split brokersStr ","%char.

Definition showProducerPartitionSummary (o : RangeOrder)
    (partitionMap : gmap string (list Z)) : list string :=
  [""; "=== Partition Distribution Summary ==="] ++
  ((λ '(userID, partitions),
      "User " +:+ userID +:+ ": " +:+ fmt_d (Z.of_nat (length partitions)) +:+
      " messages all went to partition(s) " +:+
      fmt_v_int32s (uniqueParts o userID partitions))
   <$> user_order o (map_to_list partitionMap)) ++
  ["======================================"].

Record ProducerMessage := {
  Topic : string;
  Key : string;
  Value : string
}.

(** What the cluster answers to one [SendMessage]. *)
Inductive SendResult :=
  | SendOk (partition offset : Z)
  | SendErr (err : string).

(** What happens next while [main] is in its loop.
    - [Signal]: SIGINT or SIGTERM is delivered; the listener goroutine logs
      and calls [cancel()].
    - [Tick r]: the [select] takes the ticker's case; [r] is the cluster's
      answer if this tick sends.
    - [Done]: the [select] takes the [ctx.Done()] case, which is ready only
      after [cancel()]. *)
Inductive Event :=
  | Signal
  | Tick (r : SendResult)
  | Done.

Record LoopState := {
  count : Z;
  partitionMap : gmap string (list Z);
  cancelled : bool;
  logged : list string;
  sent : list ProducerMessage
}.

Definition log_line (st : LoopState) (lines : list string) : LoopState :=
  {| count := count st; partitionMap := partitionMap st; cancelled := cancelled st;
     logged := logged st ++ lines; sent := sent st |}.

Inductive Outcome :=
  | Continue (st : LoopState)
  | Return (st : LoopState)
  | Panic (st : LoopState)
  | NoSuchStep.

Section Main.

(** [t.Format(time.RFC3339)], which depends on the zone of the process. *)
Variable format_RFC3339 : Z → string.

Definition payload (event : UserEvent) : string :=
  "{" +:+ dq +:+ "user_id" +:+ dq +:+ ":" +:+ dq +:+ UserID event +:+ dq +:+
  "," +:+ dq +:+ "event_type" +:+ dq +:+ ":" +:+ dq +:+ EventType event +:+ dq +:+
  "," +:+ dq +:+ "timestamp" +:+ dq +:+ ":" +:+ dq +:+ format_RFC3339 (Timestamp event) +:+ dq +:+
  "," +:+ dq +:+ "data" +:+ dq +:+ ":" +:+ fmt_v_map (Data event) +:+ "}".

(** One pass through the body of [main]'s [for] loop (or, for [Signal], one
    run of the listener goroutine). *)
Definition loop_body (topic : string) (messageCount : Z) (events : list UserEvent)
    (o : RangeOrder) (st : LoopState) (ev : Event) : Outcome :=
  match ev with
  | Signal =>
      if cancelled st then Continue st
      else Continue
        {| count := count st; partitionMap := partitionMap st; cancelled := true;
           logged := logged st ++ ["Received shutdown signal, stopping producer..."];
           sent := sent st |}
  | Done =>
      if cancelled st then Return (log_line st ["Producer stopped"])
      else NoSuchStep
  | Tick r =>
      if (messageCount <=? count st) || (Z.of_nat (length events) <=? count st) then
        Return (log_line st
          (("Sent " +:+ fmt_d (count st) +:+ " messages, stopping producer") ::
           showProducerPartitionSummary o (partitionMap st)))
      else
        match (if count st <? 0 then None else events !! Z.to_nat (count st)) with
        | None => Panic st
        | Some event =>
            let key := UserID event in
            let msg := {| Topic := topic; Key := key; Value := payload event |} in
            match r with
            | SendErr err =>
                Continue
                  {| count := count st + 1;
                     partitionMap := partitionMap st;
                     cancelled := cancelled st;
                     logged := logged st ++ ["Failed to send message: " +:+ err];
                     sent := sent st ++ [msg] |}
            | SendOk partition offset =>
                Continue
                  {| count := count st + 1;
                     partitionMap :=
                       <[key := default [] (partitionMap st !! key) ++ [partition]]>
                         (partitionMap st);
                     cancelled := cancelled st;
                     logged := logged st ++
                       ["Message sent - Partition: " +:+ fmt_d partition +:+
                        ", Offset: " +:+ fmt_d offset +:+ ", Key: " +:+ key +:+
                        ", Event: " +:+ EventType event];
                     sent := sent st ++ [msg] |}
            end
        end
  end.

(** The [for] loop, along a schedule. *)
Fixpoint loop (topic : string) (messageCount : Z) (events : list UserEvent)
    (o : RangeOrder) (schedule : list Event) (st : LoopState) : LoopState * ExitStatus :=
  match schedule with
  | [] => (st, Waiting)
  | ev :: schedule' =>
      match loop_body topic messageCount events o st ev with
      | Continue st' => loop topic messageCount events o schedule' st'
      | Return st' => (st', Exited 0)
      | Panic st' => (st', Exited 2)
      | NoSuchStep => (st, Unrealisable)
      end
  end.

(** Everything outside the program that a run depends on. *)
Record World := {
  w_env : gmap string string;
  w_dotenv : option (gmap string string);
  w_connect : option string;
  w_clock : Clock;
  w_schedule : list Event;
  w_order : RangeOrder
}.

Record Run := {
  run_log : list string;
  run_sent : list ProducerMessage;
  run_exit : ExitStatus
}.

(** The lines [main] logs after it has read its configuration. *)
Definition startup_log (brokers : list string) (topic : string)
    (messageCount messageInterval : Z) : list string :=
  ["Starting Kafka Producer - Partition Routing Demo";
   "Brokers: " +:+ fmt_v_slice brokers;
   "Topic: " +:+ topic;
   "Message Count: " +:+ fmt_d messageCount;
   "Message Interval: " +:+ fmt_d messageInterval +:+ "ms";
   ""].

Definition main (w : World) : Run :=
  let '(env, loaded) := godotenv_Load (w_env w) (w_dotenv w) in
  let log0 := if loaded then [] else ["No .env file found, using default values"] in
  let brokers := getBrokers env in
  let topic := getEnv env "KAFKA_TOPIC" "test-topic" in
  let messageCount := getEnvAsInt env "MESSAGE_COUNT" 20 in
  let messageInterval := getEnvAsInt env "MESSAGE_INTERVAL_MS" 500 in
  let log1 := log0 ++ startup_log brokers topic messageCount messageInterval in
  match w_connect w with
  | Some err =>
      {| run_log := log1 ++ ["Failed to create producer: failed to create producer: " +:+ err];
         run_sent := [];
         run_exit := Exited 1 |}
  | None =>
      let '(events, _) := generateUserEvents messageCount (w_clock w) in
      if duration_mul messageInterval time_Millisecond <=? 0 then
        (* time.NewTicker panics on a non-positive interval *)
        {| run_log := log1; run_sent := []; run_exit := Exited 2 |}
      else
        let '(st, status) :=
          loop topic messageCount events (w_order w) (w_schedule w)
            {| count := 0; partitionMap := ∅; cancelled := false;
               logged := log1; sent := [] |} in
        {| run_log := logged st; run_sent := sent st; run_exit := status |}
  end.

End Main.

End Producer.

(** * The consumer, [cmd/consumer/main.go] *)

Module Consumer.

Definition getEnv (env : gmap string string) (key defaultValue : string) : string :=
  let value := os_Getenv env key in
  if negb (String.eqb value "") then value else defaultValue.

Definition getEnvAsInt (env : gmap string string) (key : string) (defaultValue : Z) : Z :=
  let value := os_Getenv env key in
  if negb (String.eqb value "") then
    match strconv_Atoi value with
    | Some intValue => intValue
    | None => defaultValue
    end
  else defaultValue.

Definition getBrokers (env : gmap string string) : list string :=
  let brokersStr := getEnv env "KAFKA_BROKERS" "localhost:9092,localhost:9094,localhost:9096" in
  strings_Split brokersStr ","%char.

Definition showPartitionSummary (o : RangeOrder)
    (partitionMap : gmap string (list Z)) : list string :=
  [""; "=== Partition Distribution Summary ==="] ++
  ((λ '(userID, partitions),
      "User " +:+ userID +:+ ": " +:+ fmt_d (Z.of_nat (length partitions)) +:+
      " messages all came from partition(s) " +:+
      fmt_v_int32s (uniqueParts o userID partitions))
   <$> user_order o (map_to_list partitionMap)) ++
  ["====================================="].

Record ConsumerMessage := {
  Key : string;
  Value : string;
  Partition : Z;
  Offset : Z
}.

(** The case the [select] of [ConsumeClaim] takes: a receive from
    [claim.Messages()], which yields [nil] ([None]) once the channel is
    closed, or the session's [Done]. *)
Inductive Select :=
  | Recv (message : option ConsumerMessage)
  | SessionDone.

(** The local variables of one call of [ConsumeClaim]. *)
Record ClaimState := {
  partitionMap : gmap string (list Z);
  messageCount : Z;
  summaryShown : bool
}.

(** What one pass through the loop of [ConsumeClaim] does: the lines it logs,
    the message it marks, and whether the call goes on or returns [nil]. *)
Inductive Outcome :=
  | Continue (st : ClaimState) (lines : list string) (marked : ConsumerMessage)
  | Return (st : ClaimState) (lines : list string).

(** [if !summaryShown && len(partitionMap) > 0 { ... }; return nil] *)
Definition show_once_and_return (o : RangeOrder) (st : ClaimState) : Outcome :=
  if negb (summaryShown st) && (0 <? Z.of_nat (size (partitionMap st))) then
    Return {| partitionMap := partitionMap st; messageCount := messageCount st;
              summaryShown := true |}
           (showPartitionSummary o (partitionMap st))
  else Return st [].

Definition claim_body (o : RangeOrder) (st : ClaimState) (sel : Select) : Outcome :=
  match sel with
  | Recv None => show_once_and_return o st
  | Recv (Some message) =>
      let messageCount := wrap64 (messageCount st + 1) in
      let userID := Key message in
      Continue
        {| partitionMap :=
             <[userID := default [] (partitionMap st !! userID) ++ [Partition message]]>
               (partitionMap st);
           messageCount := messageCount;
           summaryShown := summaryShown st |}
        ["Message #" +:+ fmt_d messageCount +:+
         " received - Partition: " +:+ fmt_d (Partition message) +:+
         ", Offset: " +:+ fmt_d (Offset message) +:+
         ", Key: " +:+ userID +:+ ", Value: " +:+ Value message]
        message
  | SessionDone => show_once_and_return o st
  end.

Definition claim_start : ClaimState :=
  {| partitionMap := ∅; messageCount := 0; summaryShown := false |}.

(** One call of [ConsumeClaim] run on its own: the lines logged, the messages
    marked, the final state, and whether the call returned. *)
Fixpoint claim_loop (o : RangeOrder) (selects : list Select) (st : ClaimState) :
    list string * list ConsumerMessage * ClaimState * bool :=
  match selects with
  | [] => ([], [], st, false)
  | sel :: selects' =>
      match claim_body o st sel with
      | Continue st' lines marked =>
          let '(ls, ms, final, returned) := claim_loop o selects' st' in
          (lines ++ ls, marked :: ms, final, returned)
      | Return st' lines => (lines, [], st', true)
      end
  end.

Definition ConsumeClaim (o : RangeOrder) (selects : list Select) :
    list string * list ConsumerMessage * ClaimState * bool :=
  claim_loop o selects claim_start.

(** One call of the library's [Consume] is one session: [Setup], then one
    [ConsumeClaim] per assigned partition, all running at once, then
    [Cleanup]. A session's schedule says which goroutine moves next. *)
Inductive SessionEvent :=
  | AtClaim (i : nat) (sel : Select)
  | Signal.

Record Session := {
  s_claims : nat;
  s_schedule : list SessionEvent;
  s_order : nat → RangeOrder;
  s_err : option string
}.

Record SessionState := {
  claims : list (option ClaimState);
  cancelled : bool;
  logged : list string;
  marked : list ConsumerMessage
}.

Definition session_step (order : nat → RangeOrder) (ss : SessionState)
    (ev : SessionEvent) : SessionState :=
  match ev with
  | Signal =>
      if cancelled ss then ss
      else {| claims := claims ss; cancelled := true;
              logged := logged ss ++ ["Received shutdown signal, stopping consumer..."];
              marked := marked ss |}
  | AtClaim i sel =>
      match claims ss !! i with
      | Some (Some st) =>
          match claim_body (order i) st sel with
          | Continue st' lines m =>
              {| claims := <[i := Some st']> (claims ss); cancelled := cancelled ss;
                 logged := logged ss ++ lines; marked := marked ss ++ [m] |}
          | Return _ lines =>
              {| claims := <[i := None]> (claims ss); cancelled := cancelled ss;
                 logged := logged ss ++ lines; marked := marked ss |}
          end
      | _ => ss
      end
  end.

Section Run.

Variables (topic groupID : string).

Definition Setup : list string :=
  ["Consumer setup completed for topic: " +:+ topic +:+ ", group: " +:+ groupID].

Definition Cleanup : list string :=
  ["Consumer cleanup completed for topic: " +:+ topic +:+ ", group: " +:+ groupID].

(** [c.consumer.Consume(ctx, topics, c)]: the state when the session is over
    and the error it returns, or [None] while a claim is still running at
    the end of the schedule. *)
Definition run_session (s : Session) (cancelled0 : bool) (log0 : list string)
    (marked0 : list ConsumerMessage) : SessionState * option (option string) :=
  let ss := foldl (session_step (s_order s))
    {| claims := replicate (s_claims s) (Some claim_start); cancelled := cancelled0;
       logged := log0 ++ Setup; marked := marked0 |} (s_schedule s) in
  if forallb (λ c, match c with None => true | Some _ => false end) (claims ss) then
    ({| claims := claims ss; cancelled := cancelled ss;
        logged := logged ss ++ Cleanup; marked := marked ss |}, Some (s_err s))
  else (ss, None).

(** [Consume]: [Some err] is what the method returns ([err] is never [nil]
    in the source either); [None] when the sessions given are used up. *)
Fixpoint Consume (sessions : list Session) (cancelled0 : bool) (log0 : list string)
    (marked0 : list ConsumerMessage) :
    list string * list ConsumerMessage * option string :=
  match sessions with
  | [] => (log0, marked0, None)
  | s :: sessions' =>
      match run_session s cancelled0 log0 marked0 with
      | (ss, None) => (logged ss, marked ss, None)
      | (ss, Some (Some err)) => (logged ss, marked ss, Some ("error from consumer: " +:+ err))
      | (ss, Some None) =>
          if cancelled ss then (logged ss, marked ss, Some "context canceled")
          else Consume sessions' (cancelled ss) (logged ss) (marked ss)
      end
  end.

End Run.

Record World := {
  w_env : gmap string string;
  w_dotenv : option (gmap string string);
  w_connect : option string;
  w_sessions : list Session
}.

Record Run := {
  run_log : list string;
  run_marked : list ConsumerMessage;
  run_exit : ExitStatus
}.

(** The lines [main] logs after it has read its configuration: the only
    use [main] makes of [maxMessages]. *)
Definition startup_log (brokers : list string) (topic groupID : string)
    (maxMessages : Z) : list string :=
  ["Starting Kafka Consumer - Partition Routing Demo";
   "Brokers: " +:+ fmt_v_slice brokers;
   "Topic: " +:+ topic;
   "Group ID: " +:+ groupID;
   (if 0 <? maxMessages then "Max Messages: " +:+ fmt_d maxMessages
    else "Max Messages: Unlimited");
   "";
   "This demo shows how messages with the same keys (user IDs) come from the same partitions:";
   "- All messages for user-123 will come from the same partition";
   "- All messages for user-456 will come from the same partition";
   "- All messages for user-789 will come from the same partition";
   "- etc.";
   ""].

(** [Consume] returns only with an error, so [main] always ends in
    [log.Fatalf], which exits with status 1; the line [Consumer stopped]
    after it is never reached. *)
Definition main (w : World) : Run :=
  let '(env, loaded) := godotenv_Load (w_env w) (w_dotenv w) in
  let log0 := if loaded then [] else ["No .env file found, using default values"] in
  let brokers := getBrokers env in
  let topic := getEnv env "KAFKA_TOPIC" "test-topic" in
  let groupID := getEnv env "KAFKA_GROUP_ID" "test-consumer-group" in
  let maxMessages := getEnvAsInt env "MAX_MESSAGES" 0 in
  let log1 := log0 ++ startup_log brokers topic groupID maxMessages in
  match w_connect w with
  | Some err =>
      {| run_log := log1 ++ ["Failed to create consumer: failed to create consumer: " +:+ err];
         run_marked := [];
         run_exit := Exited 1 |}
  | None =>
      match Consume topic groupID (w_sessions w) false
              (log1 ++ ["Starting to consume messages..."]) [] with
      | (lg, mk, Some err) =>
          {| run_log := lg ++ ["Error consuming messages: " +:+ err];
             run_marked := mk; run_exit := Exited 1 |}
      | (lg, mk, None) =>
          {| run_log := lg; run_marked := mk; run_exit := Waiting |}
      end
  end.

End Consumer.

(** * Inputs of the sample runs *)

(** A clock that moves on by a different amount between two readings: the
    [n]-th reading is [250 * n * n] nanoseconds after the first. *)
Definition drifting_clock : Clock :=
  λ n, 1757000000000000000 + 250 * Z.of_nat (n * n).

(** A clock that stands still. *)
Definition frozen_clock : Clock := λ _, 1757000000000000000.


(** A rendering of timestamps for the sample runs: the nanoseconds in
    decimal. *)
Definition format_nanos (t : Z) : string := fmt_d t.

(** An environment in which each of the three integer variables is set in a
    different way: a negative number, a word, the empty string. *)
Definition sample_env : gmap string string :=
  {[ "MESSAGE_COUNT" := "-5"; "MESSAGE_INTERVAL_MS" := "soon"; "MAX_MESSAGES" := "" ]}.

(** The environment [main] works with, after [godotenv.Load]. *)
Definition producer_env (w : Producer.World) : gmap string string :=
  (godotenv_Load (Producer.w_env w) (Producer.w_dotenv w)).1.

(** What [main] has logged when it enters its loop. *)
Definition producer_startup (w : Producer.World) : list string :=
  (if (godotenv_Load (Producer.w_env w) (Producer.w_dotenv w)).2 then []
   else ["No .env file found, using default values"]) ++
  Producer.startup_log
    (Producer.getBrokers (producer_env w))
    (Producer.getEnv (producer_env w) "KAFKA_TOPIC" "test-topic")
    (Producer.getEnvAsInt (producer_env w) "MESSAGE_COUNT" 20)
    (Producer.getEnvAsInt (producer_env w) "MESSAGE_INTERVAL_MS" 500).

(** The message [main] builds for an event. *)
Definition message_for (format_RFC3339 : Z → string) (topic : string)
    (event : UserEvent) : Producer.ProducerMessage :=
  {| Producer.Topic := topic; Producer.Key := UserID event;
     Producer.Value := Producer.payload format_RFC3339 event |}.



(** A producer told to send five messages and interrupted after two. *)
Definition interrupted_world : Producer.World :=
  {| Producer.w_env := {[ "MESSAGE_COUNT" := "5" ]};
     Producer.w_dotenv := Some ∅;
     Producer.w_connect := None;
     Producer.w_clock := drifting_clock;
     Producer.w_schedule :=
       [Producer.Tick (Producer.SendOk 2 10); Producer.Tick (Producer.SendOk 0 4);
        Producer.Signal; Producer.Done];
     Producer.w_order := listing_order |}.

(** The same five messages sent to the end, the second send failing. *)
Definition completed_world : Producer.World :=
  {| Producer.w_env := {[ "MESSAGE_COUNT" := "5" ]};
     Producer.w_dotenv := Some ∅;
     Producer.w_connect := None;
     Producer.w_clock := drifting_clock;
     Producer.w_schedule :=
       [Producer.Tick (Producer.SendOk 2 10); Producer.Tick (Producer.SendErr "kafka: timed out");
        Producer.Tick (Producer.SendOk 1 7); Producer.Tick (Producer.SendOk 2 11);
        Producer.Tick (Producer.SendOk 0 5); Producer.Tick (Producer.SendOk 0 6)];
     Producer.w_order := listing_order |}.

(** The loop's state on entry. *)
Definition loop_start (log1 : list string) : Producer.LoopState :=
  {| Producer.count := 0; Producer.partitionMap := ∅; Producer.cancelled := false;
     Producer.logged := log1; Producer.sent := [] |}.





(** The events of the five-message runs. *)
Definition five_events : list UserEvent := (generateUserEvents 5 drifting_clock).1.

(** The number of times a log shows the header of the summary. *)
Definition summaries_printed (log : list string) : nat :=
  length (filter (λ line, line = "=== Partition Distribution Summary ===") log).

Definition message (key : string) (partition offset : Z) : Consumer.ConsumerMessage :=
  {| Consumer.Key := key; Consumer.Value := "{...}";
     Consumer.Partition := partition; Consumer.Offset := offset |}.

(** A consumer with [MAX_MESSAGES=3]: one session, one claim, which receives
    four messages before the user interrupts the process. *)
Definition four_messages_world : Consumer.World :=
  {| Consumer.w_env := {[ "MAX_MESSAGES" := "3" ]};
     Consumer.w_dotenv := Some ∅;
     Consumer.w_connect := None;
     Consumer.w_sessions :=
       [{| Consumer.s_claims := 1;
           Consumer.s_schedule :=
             [Consumer.AtClaim 0 (Consumer.Recv (Some (message "user-123" 2 0)));
              Consumer.AtClaim 0 (Consumer.Recv (Some (message "user-456" 0 0)));
              Consumer.AtClaim 0 (Consumer.Recv (Some (message "user-789" 1 0)));
              Consumer.AtClaim 0 (Consumer.Recv (Some (message "user-123" 2 1)));
              Consumer.Signal;
              Consumer.AtClaim 0 Consumer.SessionDone];
           Consumer.s_order := λ _, listing_order;
           Consumer.s_err := None |}] |}.

(** A consumer whose group is rebalanced once: the first session's claim
    ends when its channel is closed, the second session's claim when the user
    interrupts the process. *)
Definition rebalanced_world : Consumer.World :=
  {| Consumer.w_env := ∅;
     Consumer.w_dotenv := Some ∅;
     Consumer.w_connect := None;
     Consumer.w_sessions :=
       [{| Consumer.s_claims := 1;
           Consumer.s_schedule :=
             [Consumer.AtClaim 0 (Consumer.Recv (Some (message "user-123" 2 0)));
              Consumer.AtClaim 0 (Consumer.Recv (Some (message "user-456" 0 0)));
              Consumer.AtClaim 0 (Consumer.Recv None)];
           Consumer.s_order := λ _, listing_order;
           Consumer.s_err := None |};
        {| Consumer.s_claims := 1;
           Consumer.s_schedule :=
             [Consumer.AtClaim 0 (Consumer.Recv (Some (message "user-123" 2 1)));
              Consumer.Signal;
              Consumer.AtClaim 0 Consumer.SessionDone];
           Consumer.s_order := λ _, listing_order;
           Consumer.s_err := None |}] |}.

(** A consumer that is assigned two partitions in one session; both claims
    have received a message when the user interrupts the process. *)
Definition two_claims_world : Consumer.World :=
  {| Consumer.w_env := ∅;
     Consumer.w_dotenv := Some ∅;
     Consumer.w_connect := None;
     Consumer.w_sessions :=
       [{| Consumer.s_claims := 2;
           Consumer.s_schedule :=
             [Consumer.AtClaim 0 (Consumer.Recv (Some (message "user-456" 0 0)));
              Consumer.AtClaim 1 (Consumer.Recv (Some (message "user-789" 1 0)));
              Consumer.Signal;
              Consumer.AtClaim 1 Consumer.SessionDone;
              Consumer.AtClaim 0 Consumer.SessionDone];
           Consumer.s_order := λ _, listing_order;
           Consumer.s_err := None |}] |}.

(** What a summary says about each user, before it is laid out in lines: the
    user, the number of messages, the partitions in the order listed. *)
Definition summary_entries (o : RangeOrder) (partitionMap : gmap string (list Z)) :
    list (string * nat * list Z) :=
  (λ '(userID, partitions), (userID, length partitions, uniqueParts o userID partitions))
  <$> user_order o (map_to_list partitionMap).

(** The same, the order of the partitions forgotten. *)
Definition reported (entry : string * nat * list Z) : string * nat * gset Z :=
  (entry.1.1, entry.1.2, list_to_set entry.2).

Definition came_from_line (entry : string * nat * list Z) : string :=
  "User " +:+ entry.1.1 +:+ ": " +:+ fmt_d (Z.of_nat entry.1.2) +:+
  " messages all came from partition(s) " +:+ fmt_v_int32s entry.2.

Definition went_to_line (entry : string * nat * list Z) : string :=
  "User " +:+ entry.1.1 +:+ ": " +:+ fmt_d (Z.of_nat entry.1.2) +:+
  " messages all went to partition(s) " +:+ fmt_v_int32s entry.2.

(** The routing invariant on a record: every user has been seen on one
    partition only. *)
Definition single_partition (partitionMap : gmap string (list Z)) : Prop :=
  ∀ userID partitions p q,
    partitionMap !! userID = Some partitions → p ∈ partitions → q ∈ partitions → p = q.

(** A record of two users. *)
Definition two_users : gmap string (list Z) :=
  {[ "user-123" := [2; 2]; "user-456" := [0] ]}.

(** A record of one user. *)
Definition one_user : gmap string (list Z) := {[ "user-123" := [1; 1; 1; 1; 1] ]}.

(** Two states of a session that differ in what has been logged only. *)
Definition same_but_log (a b : Consumer.SessionState) : Prop :=
  Consumer.claims a = Consumer.claims b ∧
  Consumer.cancelled a = Consumer.cancelled b ∧
  Consumer.marked a = Consumer.marked b.

(** A world with [MAX_MESSAGES] set to [value]. *)
Definition with_max_messages (value : string) (w : Consumer.World) : Consumer.World :=
  {| Consumer.w_env := <["MAX_MESSAGES" := value]> (Consumer.w_env w);
     Consumer.w_dotenv := Consumer.w_dotenv w;
     Consumer.w_connect := Consumer.w_connect w;
     Consumer.w_sessions := Consumer.w_sessions w |}.

(** * Notions used to state further properties *)

(** The user an event type always comes with: the list of users is half as
    long as the list of event types, so the two cycles stay in step. *)
Definition type_pairs : list (string * string) :=
  [("user-123", "page_view"); ("user-456", "purchase"); ("user-789", "login");
   ("user-123", "logout"); ("user-456", "search"); ("user-789", "add_to_cart")].

(** The fifth event of the five-message runs. *)
Definition fifth_event : UserEvent := make_event 4 (drifting_clock 4%nat).

(** The characters of a string. *)
Definition chars (s : string) : list ascii := list_ascii_of_string s.

(** An environment whose count does not fit an [int], and whose interval has
    a space in front. *)
Definition odd_env : gmap string string :=
  {[ "MESSAGE_COUNT" := "9223372036854775808"; "MESSAGE_INTERVAL_MS" := " 250";
     "KAFKA_BROKERS" := "kafka-1:9092,kafka-2:9092" ]}.

(** [partitionMap[key] = append(partitionMap[key], partition)], the statement
    with which both programs build their record. *)
Definition record (m : gmap string (list Z)) (key : string) (partition : Z) :
    gmap string (list Z) :=
  <[key := default [] (m !! key) ++ [partition]]> m.

(** The record after the observations [pairs], a user and a partition each,
    oldest first. *)
Definition record_all (pairs : list (string * Z)) (m : gmap string (list Z)) :
    gmap string (list Z) :=
  foldl (λ m kp, record m kp.1 kp.2) m pairs.

(** The partitions observed for one user, oldest first. *)
Definition partitions_of (key : string) (pairs : list (string * Z)) : list Z :=
  (filter (λ kp, kp.1 = key) pairs).*2.

(** The number of partitions a record holds, all users together. *)
Definition total (m : gmap string (list Z)) : nat :=
  sum_list_with (λ kv, length kv.2) (map_to_list m).

(** The sum of the message counts a summary prints. *)
Definition total_reported (o : RangeOrder) (m : gmap string (list Z)) : nat :=
  sum_list_with (λ entry, entry.1.2) (summary_entries o m).

(** The users and partitions of the sends that succeeded, when the [i]-th
    tick sends the [i]-th event and gets the [i]-th answer. *)
Fixpoint landed (events : list UserEvent) (answers : list Producer.SendResult) :
    list (string * Z) :=
  match events, answers with
  | e :: events', Producer.SendOk partition _ :: answers' =>
      (UserID e, partition) :: landed events' answers'
  | _ :: events', Producer.SendErr _ :: answers' => landed events' answers'
  | _, _ => []
  end.

(** The messages a claim is handed before its channel is closed or its
    session is done. *)
Fixpoint received (selects : list Consumer.Select) : list Consumer.ConsumerMessage :=
  match selects with
  | Consumer.Recv (Some message) :: selects' => message :: received selects'
  | _ => []
  end.

(** Whether the channel is closed or the session done at some point. *)
Fixpoint ended (selects : list Consumer.Select) : bool :=
  match selects with
  | [] => false
  | Consumer.Recv (Some _) :: selects' => ended selects'
  | _ => true
  end.

(** The line a claim logs for its [n]-th message. *)
Definition receipt (n : Z) (message : Consumer.ConsumerMessage) : string :=
  "Message #" +:+ fmt_d n +:+
  " received - Partition: " +:+ fmt_d (Consumer.Partition message) +:+
  ", Offset: " +:+ fmt_d (Consumer.Offset message) +:+
  ", Key: " +:+ Consumer.Key message +:+ ", Value: " +:+ Consumer.Value message.

(** The user and the partition of a message. *)
Definition observed (message : Consumer.ConsumerMessage) : string * Z :=
  (Consumer.Key message, Consumer.Partition message).

(** The configuration [main] of the producer works with. *)
Definition producer_topic (w : Producer.World) : string :=
  Producer.getEnv (producer_env w) "KAFKA_TOPIC" "test-topic".

Definition producer_count (w : Producer.World) : Z :=
  Producer.getEnvAsInt (producer_env w) "MESSAGE_COUNT" 20.

Definition producer_interval_ms (w : Producer.World) : Z :=
  Producer.getEnvAsInt (producer_env w) "MESSAGE_INTERVAL_MS" 500.

Definition producer_events (w : Producer.World) : list UserEvent :=
  (generateUserEvents (producer_count w) (Producer.w_clock w)).1.

(** What the loop of the producer keeps true of its state: the messages sent
    so far are those of the first [count] events, in order, and [count] has
    passed neither the configured count nor the end of the events. *)
Definition sends_in_order (format_RFC3339 : Z → string) (topic : string)
    (messageCount : Z) (events : list UserEvent) (st : Producer.LoopState) : Prop :=
  0 ≤ Producer.count st ≤ Z.of_nat (length events) ∧
  Producer.count st ≤ Z.max 0 messageCount ∧
  Producer.sent st =
    message_for format_RFC3339 topic <$> take (Z.to_nat (Producer.count st)) events.

(** The loop of the producer as [main] runs it. *)
Definition producer_loop (format_RFC3339 : Z → string) (w : Producer.World) :
    Producer.LoopState * ExitStatus :=
  Producer.loop format_RFC3339 (producer_topic w) (producer_count w) (producer_events w)
    (Producer.w_order w) (Producer.w_schedule w) (loop_start (producer_startup w)).



(** The answers of the cluster in [completed_world]. *)
Definition completed_answers : list Producer.SendResult :=
  [Producer.SendOk 2 10; Producer.SendErr "kafka: timed out"; Producer.SendOk 1 7;
   Producer.SendOk 2 11; Producer.SendOk 0 5; Producer.SendOk 0 6].

(** The lines a claim logs for the messages it is handed, the last one
    before them having been its [n]-th. *)
Fixpoint receipts (n : Z) (messages : list Consumer.ConsumerMessage) : list string :=
  match messages with
  | [] => []
  | message :: messages' => receipt (n + 1) message :: receipts (n + 1) messages'
  end.

(** A claim that is handed three messages and then finds its channel closed,
    and one whose channel is closed before any message. *)
Definition three_then_closed : list Consumer.Select :=
  [Consumer.Recv (Some (message "user-123" 2 0));
   Consumer.Recv (Some (message "user-456" 0 0));
   Consumer.Recv (Some (message "user-123" 2 1));
   Consumer.Recv None;
   Consumer.Recv (Some (message "user-789" 1 0))].

Definition closed_at_once : list Consumer.Select := [Consumer.Recv None].

(** A consumer that cannot connect. *)
Definition unreachable_consumer : Consumer.World :=
  {| Consumer.w_env := ∅;
     Consumer.w_dotenv := None;
     Consumer.w_connect := Some "kafka: client has run out of available brokers";
     Consumer.w_sessions := [] |}.

(** * The event generator *)

Section Generator.

Implicit Types (count i : Z) (clk : Clock) (n k : nat).

(** The loop appends one event per iteration, the [k]-th with the [k]-th
    reading of the clock. *)
Lemma generate_loop_events n : ∀ i clk events,
  (generate_loop n i clk events).1 =
  events ++ ((λ k, make_event (i + Z.of_nat k) (clk k)) <$> seq 0 n).
Proof.
  induction n as [|n IH]; intros i clk events; simpl.
  - by rewrite app_nil_r.
  - rewrite IH, <- app_assoc. f_equal. simpl.
    rewrite Z.add_0_r. f_equal.
    rewrite <- fmap_S_seq, <- list_fmap_compose.
    apply list_fmap_ext. intros _ k _. simpl.
    f_equal. lia.
Qed.

Lemma generateUserEvents_events count clk :
  (generateUserEvents count clk).1 =
  (λ k, make_event (Z.of_nat k) (clk k)) <$> seq 0 (Z.to_nat count).
Proof.
  unfold generateUserEvents. rewrite generate_loop_events. simpl.
  apply list_fmap_ext. intros _ k _. by rewrite Z.add_0_l.
Qed.

Lemma generateUserEvents_length count clk :
  length (generateUserEvents count clk).1 = Z.to_nat count.
Proof. by rewrite generateUserEvents_events, length_fmap, length_seq. Qed.

Lemma generateUserEvents_lookup count clk k :
  (k < Z.to_nat count)%nat →
  (generateUserEvents count clk).1 !! k = Some (make_event (Z.of_nat k) (clk k)).
Proof.
  intros Hk. rewrite generateUserEvents_events, list_lookup_fmap.
  by rewrite lookup_seq_lt.
Qed.

Lemma generateUserEvents_lookup_inv count clk k e :
  (generateUserEvents count clk).1 !! k = Some e →
  (k < Z.to_nat count)%nat ∧ e = make_event (Z.of_nat k) (clk k).
Proof.
  intros He. assert (k < Z.to_nat count)%nat as Hk.
  { apply lookup_lt_Some in He. by rewrite generateUserEvents_length in He. }
  split; [done|]. rewrite generateUserEvents_lookup in He by done. congruence.
Qed.

(** Indexing a list at [i % len(l)] stays in range when [i] is not negative. *)
Lemma cycle_lookup (l : list string) i :
  l ≠ [] → 0 ≤ i →
  l !! Z.to_nat (i `mod` Z.of_nat (length l)) = Some (cycle l i).
Proof.
  intros Hl Hi. unfold cycle.
  assert (0 < Z.of_nat (length l)) as Hlen by (destruct l; [done|simpl; lia]).
  rewrite Z.rem_mod_nonneg by lia.
  destruct (lookup_lt_is_Some_2 l (Z.to_nat (i `mod` Z.of_nat (length l)))) as [x Hx].
  - pose proof (Z.mod_pos_bound i (Z.of_nat (length l)) Hlen). lia.
  - by rewrite Hx.
Qed.

(** [time.Duration(i) * time.Second] does not wrap for the first
    9223372037 indices. *)
Lemma duration_mul_Second i :
  0 ≤ i ≤ 9223372036 → duration_mul i time_Second = i * 1000000000.
Proof.
  intros Hi. unfold duration_mul, wrap64, time_Second.
  rewrite Z.mod_small; lia.
Qed.

(** Past that index the product wraps to a negative duration. *)
Example duration_mul_wraps :
  duration_mul 9223372037 time_Second = - 9223372036709551616.
Proof. reflexivity. Qed.

End Generator.

(** C5: for every [N >= 0] the generator returns exactly [N] events, and the
    event at every index [i < N] carries the user id at position
    [i mod len(users)] of the fixed user list and the event type at position
    [i mod len(eventTypes)] of the fixed list of event types. *)
Theorem generateUserEvents_exactly_N_cycling (N : Z) (clk : Clock) :
  0 ≤ N →
  Z.of_nat (length (generateUserEvents N clk).1) = N ∧
  ∀ i, 0 ≤ i < N →
    ∃ e, (generateUserEvents N clk).1 !! Z.to_nat i = Some e ∧
      users !! Z.to_nat (i `mod` Z.of_nat (length users)) = Some (UserID e) ∧
      eventTypes !! Z.to_nat (i `mod` Z.of_nat (length eventTypes)) = Some (EventType e).
Proof.
  intros HN. split.
  - rewrite generateUserEvents_length. lia.
  - intros i Hi. eexists. split.
    + apply generateUserEvents_lookup. lia.
    + rewrite Z2Nat.id by lia. simpl UserID. simpl EventType.
      split; apply cycle_lookup; (done || lia).
Qed.

(** Seven events under the drifting clock. *)
Lemma generateUserEvents_exactly_N_cycling_witness :
  0 ≤ 7 ∧
  Z.of_nat (length (generateUserEvents 7 drifting_clock).1) = 7 ∧
  ∀ i, 0 ≤ i < 7 →
    ∃ e, (generateUserEvents 7 drifting_clock).1 !! Z.to_nat i = Some e ∧
      users !! Z.to_nat (i `mod` Z.of_nat (length users)) = Some (UserID e) ∧
      eventTypes !! Z.to_nat (i `mod` Z.of_nat (length eventTypes)) = Some (EventType e).
Proof.
  split; [lia | apply (generateUserEvents_exactly_N_cycling 7 drifting_clock); lia].
Defined.

(** The seventh event of a run starts the second round of event types and the
    third round of users. *)
Example seventh_event :
  (λ e, (UserID e, EventType e)) <$> (generateUserEvents 7 frozen_clock).1 !! 6%nat =
  Some ("user-123", "page_view").
Proof. reflexivity. Qed.




(** C6, as it is stated, fails: with a clock that moves on unevenly the first
    two steps of a sequence of three events are not the same. *)
Lemma consecutive_steps_differ :
  ∃ e0 e1 e2,
    (generateUserEvents 3 drifting_clock).1 = [e0; e1; e2] ∧
    Timestamp e1 - Timestamp e0 = 1000000250 ∧
    Timestamp e2 - Timestamp e1 = 1000000750.
Proof. eexists _, _, _. split; [reflexivity|]. split; vm_compute; reflexivity. Qed.

(** C6, amended: within one generated sequence of at most 9223372037 events,
    the timestamps of two consecutive events differ by one second plus the
    advance of the clock between the two iterations; so they increase when
    the clock does not go back, and the step is the same constant, one
    second, for every adjacent pair when the clock reads the same in every
    iteration. *)
Theorem timestamps_step (N : Z) (clk : Clock) (k : nat) (e1 e2 : UserEvent) :
  N ≤ 9223372037 →
  (generateUserEvents N clk).1 !! k = Some e1 →
  (generateUserEvents N clk).1 !! S k = Some e2 →
  Timestamp e2 - Timestamp e1 = time_Second + (clk (S k) - clk k) ∧
  (clk k ≤ clk (S k) → Timestamp e1 < Timestamp e2) ∧
  (clk (S k) = clk k → Timestamp e2 - Timestamp e1 = time_Second).
Proof.
  intros HN H1 H2.
  apply generateUserEvents_lookup_inv in H1 as [Hk1 ->].
  apply generateUserEvents_lookup_inv in H2 as [Hk2 ->].
  simpl Timestamp. unfold time_Add.
  rewrite !duration_mul_Second by lia.
  unfold time_Second. lia.
Qed.

(** The first two events of a sequence of three under the drifting clock. *)
Lemma timestamps_step_witness :
  Timestamp (make_event 1 (drifting_clock 1%nat)) - Timestamp (make_event 0 (drifting_clock 0%nat)) =
    time_Second + (drifting_clock 1%nat - drifting_clock 0%nat) ∧
  (drifting_clock 0%nat ≤ drifting_clock 1%nat →
   Timestamp (make_event 0 (drifting_clock 0%nat)) < Timestamp (make_event 1 (drifting_clock 1%nat))) ∧
  (drifting_clock 1%nat = drifting_clock 0%nat →
   Timestamp (make_event 1 (drifting_clock 1%nat)) - Timestamp (make_event 0 (drifting_clock 0%nat)) =
     time_Second).
Proof.
  apply (timestamps_step 3 drifting_clock 0%nat); [lia | reflexivity | reflexivity].
Defined.

(** * Reading the configuration *)

Section Config.

Implicit Types (env : gmap string string) (key value : string).

Lemma os_Getenv_unset env key : env !! key = None → os_Getenv env key = "".
Proof. unfold os_Getenv. by intros ->. Qed.

Lemma os_Getenv_set env key value : env !! key = Some value → os_Getenv env key = value.
Proof. unfold os_Getenv. by intros ->. Qed.

Lemma strconv_Atoi_empty : strconv_Atoi "" = None.
Proof. reflexivity. Qed.

Lemma getEnvAsInt_same env key (defaultValue : Z) :
  Consumer.getEnvAsInt env key defaultValue = Producer.getEnvAsInt env key defaultValue.
Proof. reflexivity. Qed.

(** The function in terms of the variable's text alone. *)
Lemma getEnvAsInt_unfold env key (defaultValue : Z) :
  Producer.getEnvAsInt env key defaultValue =
  default defaultValue (strconv_Atoi (os_Getenv env key)).
Proof.
  unfold Producer.getEnvAsInt.
  destruct (String.eqb_spec (os_Getenv env key) "") as [->|_]; [done|].
  simpl. by destruct (strconv_Atoi _).
Qed.

(** [strconv.Atoi] reads back the decimal numeral of every [int], the
    negative ones with their sign. *)
Lemma digit_value_pretty (d : N) :
  (d < 10)%N → digit_value (pretty_N_char d) = Some (Z.of_N d).
Proof.
  intros Hd.
  assert (d = 0 ∨ d = 1 ∨ d = 2 ∨ d = 3 ∨ d = 4 ∨ d = 5 ∨ d = 6 ∨ d = 7 ∨ d = 8 ∨ d = 9)%N
    as Hcases by lia.
  repeat (destruct Hcases as [->|Hcases]; [reflexivity|]). by subst.
Qed.

Lemma parse_digits_pretty_go (x : N) : ∀ s,
  parse_digits (pretty_N_go x s) 0 = parse_digits s (Z.of_N x).
Proof.
  induction (N.lt_wf_0 x) as [x _ IH]. intros s.
  destruct (decide (x = 0)%N) as [->|Hx]; [by rewrite pretty_N_go_0|].
  rewrite pretty_N_go_step by lia.
  rewrite IH by (apply N.div_lt; lia).
  simpl. rewrite digit_value_pretty by (apply N.mod_lt; lia).
  f_equal. rewrite (N.div_mod x 10) at 3 by lia. lia.
Qed.

(** A positive number is printed with a digit in front. *)
Lemma pretty_go_head (x : N) : ∀ s,
  (0 < x)%N → ∃ d rest, (d < 10)%N ∧ pretty_N_go x s = String (pretty_N_char d) rest.
Proof.
  induction (N.lt_wf_0 x) as [x _ IH]. intros s Hx.
  rewrite pretty_N_go_step by done.
  destruct (decide (x `div` 10 = 0)%N) as [->|Hq].
  - rewrite pretty_N_go_0. eexists _, _. split; [|done]. by apply N.mod_lt.
  - apply IH; [apply N.div_lt; lia|]. apply N.neq_0_lt_0. exact Hq.
Qed.

Lemma strconv_Atoi_digits (d : N) (rest : string) :
  (d < 10)%N →
  strconv_Atoi (String (pretty_N_char d) rest) =
    match parse_digits (String (pretty_N_char d) rest) 0 with
    | Some n => if (- 2 ^ 63 <=? n) && (n <? 2 ^ 63) then Some n else None
    | None => None
    end.
Proof.
  intros Hd.
  assert (d = 0 ∨ d = 1 ∨ d = 2 ∨ d = 3 ∨ d = 4 ∨ d = 5 ∨ d = 6 ∨ d = 7 ∨ d = 8 ∨ d = 9)%N
    as Hcases by lia.
  repeat (destruct Hcases as [->|Hcases]; [reflexivity|]). by subst.
Qed.

Lemma strconv_Atoi_fmt_d (n : Z) :
  - 2 ^ 63 ≤ n < 2 ^ 63 → strconv_Atoi (fmt_d n) = Some n.
Proof.
  intros Hn. unfold fmt_d, pretty, pretty_Z.
  destruct n as [|p|p]; [reflexivity| |].
  - unfold pretty, pretty_positive, pretty, pretty_N.
    destruct (decide (N.pos p = 0)%N) as [|_]; [done|].
    destruct (pretty_go_head (N.pos p) "") as (d & rest & Hd & Heq); [lia|].
    pose proof (parse_digits_pretty_go (N.pos p) "") as Hparse.
    rewrite Heq in Hparse |- *. simpl parse_digits at 2 in Hparse.
    rewrite (strconv_Atoi_digits d rest Hd), Hparse.
    change (Z.of_N (N.pos p)) with (Z.pos p).
    destruct (Z.leb_spec (- 2 ^ 63) (Z.pos p)); [|lia].
    destruct (Z.ltb_spec (Z.pos p) (2 ^ 63)); [done|lia].
  - unfold pretty, pretty_positive, pretty, pretty_N.
    destruct (decide (N.pos p = 0)%N) as [|_]; [done|].
    destruct (pretty_go_head (N.pos p) "") as (d & rest & Hd & Heq); [lia|].
    pose proof (parse_digits_pretty_go (N.pos p) "") as Hparse.
    rewrite Heq in Hparse |- *. simpl parse_digits at 2 in Hparse.
    change ("-" +:+ String (pretty_N_char d) rest)
      with (String "-"%char (String (pretty_N_char d) rest)).
    unfold strconv_Atoi. rewrite Hparse.
    change (Z.of_N (N.pos p)) with (Z.pos p).
    change (- Z.pos p) with (Z.neg p).
    destruct (Z.leb_spec (- 2 ^ 63) (Z.neg p)); [|lia].
    destruct (Z.ltb_spec (Z.neg p) (2 ^ 63)); [done|lia].
Qed.

End Config.

(** C10: an integer variable that is not set, is empty, or does not parse as
    an integer gives the built-in default, and the function has no way to
    report an error (it returns the integer and nothing else); a value that
    parses is returned as it is, and the decimal numeral of every [int],
    negative ones included, parses to that [int]. The same holds in the
    producer and in the consumer. *)
Theorem getEnvAsInt_default_or_parsed (env : gmap string string) (key : string)
    (defaultValue : Z) :
  Consumer.getEnvAsInt env key defaultValue = Producer.getEnvAsInt env key defaultValue ∧
  (env !! key = None → Producer.getEnvAsInt env key defaultValue = defaultValue) ∧
  (env !! key = Some "" → Producer.getEnvAsInt env key defaultValue = defaultValue) ∧
  (∀ value, env !! key = Some value → strconv_Atoi value = None →
     Producer.getEnvAsInt env key defaultValue = defaultValue) ∧
  (∀ value n, env !! key = Some value → strconv_Atoi value = Some n →
     Producer.getEnvAsInt env key defaultValue = n) ∧
  (∀ n, - 2 ^ 63 ≤ n < 2 ^ 63 → env !! key = Some (fmt_d n) →
     Producer.getEnvAsInt env key defaultValue = n).
Proof.
  split; [apply getEnvAsInt_same|].
  rewrite getEnvAsInt_unfold. repeat split.
  - intros Hk. by rewrite (os_Getenv_unset _ _ Hk).
  - intros Hk. by rewrite (os_Getenv_set _ _ _ Hk).
  - intros value Hk Hv. by rewrite (os_Getenv_set _ _ _ Hk), Hv.
  - intros value n Hk Hv. by rewrite (os_Getenv_set _ _ _ Hk), Hv.
  - intros n Hn Hk. by rewrite (os_Getenv_set _ _ _ Hk), strconv_Atoi_fmt_d.
Qed.

(** The three variables in [sample_env], and one that is not set. *)
Lemma getEnvAsInt_default_or_parsed_witness :
  Producer.getEnvAsInt sample_env "MESSAGE_COUNT" 20 = -5 ∧
  Producer.getEnvAsInt sample_env "MESSAGE_INTERVAL_MS" 500 = 500 ∧
  Consumer.getEnvAsInt sample_env "MAX_MESSAGES" 0 = 0 ∧
  Consumer.getEnvAsInt sample_env "KAFKA_TOPIC" 7 = 7.
Proof.
  pose proof (getEnvAsInt_default_or_parsed sample_env "MESSAGE_COUNT" 20)
    as (_ & _ & _ & _ & Hparsed & _).
  pose proof (getEnvAsInt_default_or_parsed sample_env "MESSAGE_INTERVAL_MS" 500)
    as (_ & _ & _ & Hword & _).
  pose proof (getEnvAsInt_default_or_parsed sample_env "MAX_MESSAGES" 0)
    as (Hsame0 & _ & Hempty & _).
  pose proof (getEnvAsInt_default_or_parsed sample_env "KAFKA_TOPIC" 7)
    as (Hsame7 & Hunset & _).
  split; [exact (Hparsed "-5" (-5) eq_refl eq_refl)|].
  split; [exact (Hword "soon" eq_refl eq_refl)|].
  split; [rewrite Hsame0; exact (Hempty eq_refl)|].
  rewrite Hsame7. exact (Hunset eq_refl).
Defined.

(** * The producer's loop *)

Section ProducerLoop.

Import Producer.

Variable format_RFC3339 : Z → string.
Variables (topic : string) (messageCount : Z) (events : list UserEvent) (o : RangeOrder).

Local Abbreviation body := (loop_body format_RFC3339 topic messageCount events o).
Local Abbreviation run_loop := (loop format_RFC3339 topic messageCount events o).



(** Once the signal has been delivered, a [select] that takes the
    [ctx.Done()] case ends the loop, whatever the schedule still holds: the
    state is left as it is but for one line of log, and the summary routine
    is not called. *)
Lemma done_ends_loop st schedule :
  cancelled st = true →
  run_loop (Done :: schedule) st = (log_line st ["Producer stopped"], Exited 0).
Proof. intros Hc. cbn [loop loop_body]. by rewrite Hc. Qed.

End ProducerLoop.



(** The run of [completed_world]: the second send fails, the third tick sends
    the third event, and the summary counts the four messages that arrived. *)
Example completed_run_log :
  Producer.run_log (Producer.main format_nanos completed_world) =
  ["Starting Kafka Producer - Partition Routing Demo";
   "Brokers: [localhost:9092 localhost:9094 localhost:9096]";
   "Topic: test-topic"; "Message Count: 5"; "Message Interval: 500ms"; "";
   "Message sent - Partition: 2, Offset: 10, Key: user-123, Event: page_view";
   "Failed to send message: kafka: timed out";
   "Message sent - Partition: 1, Offset: 7, Key: user-789, Event: login";
   "Message sent - Partition: 2, Offset: 11, Key: user-123, Event: logout";
   "Message sent - Partition: 0, Offset: 5, Key: user-456, Event: search";
   "Sent 5 messages, stopping producer"; "";
   "=== Partition Distribution Summary ===";
   "User user-789: 1 messages all went to partition(s) [1]";
   "User user-123: 2 messages all went to partition(s) [2]";
   "User user-456: 1 messages all went to partition(s) [0]";
   "======================================"].
Proof. vm_compute. reflexivity. Qed.

(** C2, on the code: a producer interrupted after two of its five messages
    takes the [ctx.Done()] case, sends nothing more, logs [Producer stopped]
    and exits with status 0, and the summary of the two partitions recorded
    so far is not printed. *)
Theorem interrupted_run_prints_no_summary :
  Producer.run_log (Producer.main format_nanos interrupted_world) =
  ["Starting Kafka Producer - Partition Routing Demo";
   "Brokers: [localhost:9092 localhost:9094 localhost:9096]";
   "Topic: test-topic"; "Message Count: 5"; "Message Interval: 500ms"; "";
   "Message sent - Partition: 2, Offset: 10, Key: user-123, Event: page_view";
   "Message sent - Partition: 0, Offset: 4, Key: user-456, Event: purchase";
   "Received shutdown signal, stopping producer...";
   "Producer stopped"] ∧
  Producer.Key <$> Producer.run_sent (Producer.main format_nanos interrupted_world) =
    ["user-123"; "user-456"] ∧
  Producer.run_exit (Producer.main format_nanos interrupted_world) = Exited 0.
Proof. vm_compute. repeat split; reflexivity. Qed.


Section ZeroCount.

Import Producer.

Variable format_RFC3339 : Z → string.
Variables (topic : string) (events : list UserEvent) (o : RangeOrder).



End ZeroCount.





(** * The consumer's loop *)

Section MaxMessages.

Import Consumer.

(** A claim that is handed messages and nothing else takes them all, however
    many they are: nothing in [ConsumeClaim] counts them against a bound. *)
Lemma claim_loop_receives_all o (messages : list ConsumerMessage) : ∀ st,
  (claim_loop o (Recv ∘ Some <$> messages) st).1.1.2 = messages ∧
  (claim_loop o (Recv ∘ Some <$> messages) st).2 = false.
Proof.
  induction messages as [|m messages IH]; intros st; [done|].
  rewrite fmap_cons. cbn [claim_loop compose claim_body].
  match goal with |- context [claim_loop o _ ?st'] =>
    destruct (IH st') as [IH1 IH2];
    destruct (claim_loop o (Recv ∘ Some <$> messages) st') as [[[ls ms] final] returned]
  end.
  simpl in *. by subst.
Qed.

(** Once a claim has returned, the session passes over what the schedule
    still holds for it. *)
Lemma returned_claim_is_skipped order (selects : list Select) ss :
  claims ss = [None] →
  foldl (session_step order) ss (AtClaim 0 <$> selects) = ss.
Proof.
  revert ss. induction selects as [|sel selects IH]; intros ss Hss; [done|].
  rewrite fmap_cons. cbn [foldl session_step]. rewrite Hss. simpl.
  by apply IH.
Qed.

(** A session with one claim whose schedule moves that claim only is one call
    of [ConsumeClaim]: the same lines, the same messages marked. *)
Lemma single_claim_session order (selects : list Select) : ∀ st c log mk,
  foldl (session_step order)
    {| claims := [Some st]; cancelled := c; logged := log; marked := mk |}
    (AtClaim 0 <$> selects) =
  {| claims := [if (claim_loop (order 0%nat) selects st).2 then None
                else Some (claim_loop (order 0%nat) selects st).1.2];
     cancelled := c;
     logged := log ++ (claim_loop (order 0%nat) selects st).1.1.1;
     marked := mk ++ (claim_loop (order 0%nat) selects st).1.1.2 |}.
Proof.
  induction selects as [|sel selects IH]; intros st c log mk.
  - simpl. by rewrite !app_nil_r.
  - rewrite fmap_cons. cbn [foldl session_step claim_loop]. simpl.
    destruct (claim_body (order 0%nat) st sel) as [st' lines m|st' lines].
    + rewrite IH.
      destruct (claim_loop (order 0%nat) selects st') as [[[ls ms] final] returned].
      simpl. by rewrite <- !app_assoc.
    + simpl. rewrite returned_claim_is_skipped by done. by rewrite app_nil_r.
Qed.

Lemma ConsumeClaim_is_a_session order (selects : list Select) log :
  foldl (session_step order)
    {| claims := replicate 1 (Some claim_start); cancelled := false;
       logged := log; marked := [] |}
    (AtClaim 0 <$> selects) =
  {| claims := [if (ConsumeClaim (order 0%nat) selects).2 then None
                else Some (ConsumeClaim (order 0%nat) selects).1.2];
     cancelled := false;
     logged := log ++ (ConsumeClaim (order 0%nat) selects).1.1.1;
     marked := (ConsumeClaim (order 0%nat) selects).1.1.2 |}.
Proof. apply single_claim_session. Qed.

Lemma session_step_same_but_log order a b ev :
  same_but_log a b →
  same_but_log (session_step order a ev) (session_step order b ev).
Proof.
  intros (Hclaims & Hcancelled & Hmarked). unfold same_but_log.
  destruct ev as [i sel|]; simpl.
  - rewrite <- Hclaims. destruct (claims a !! i) as [[st|]|]; try done.
    destruct (claim_body (order i) st sel); simpl; by rewrite Hcancelled, Hmarked.
  - rewrite <- Hcancelled. destruct (cancelled a) eqn:Hc; simpl; [|done].
    split; [done|]. split; [congruence|done].
Qed.

Lemma session_schedule_same_but_log order schedule : ∀ a b,
  same_but_log a b →
  same_but_log (foldl (session_step order) a schedule)
               (foldl (session_step order) b schedule).
Proof.
  induction schedule as [|ev schedule IH]; intros a b Hab; [done|].
  simpl. by apply IH, session_step_same_but_log.
Qed.

Lemma run_session_same_but_log topic groupID s c log log' mk :
  same_but_log (run_session topic groupID s c log mk).1
               (run_session topic groupID s c log' mk).1 ∧
  (run_session topic groupID s c log mk).2 = (run_session topic groupID s c log' mk).2.
Proof.
  unfold run_session.
  match goal with |- context [foldl ?f ?a (s_schedule s)] =>
    match goal with |- context [foldl f ?b (s_schedule s)] =>
      assert_fails (constr_eq a b);
      pose proof (session_schedule_same_but_log (s_order s) (s_schedule s) a b) as Hsame
    end
  end.
  destruct Hsame as (Hclaims & Hcancelled & Hmarked); [by repeat split|].
  rewrite <- Hclaims.
  destruct (forallb _ _); simpl; by repeat split.
Qed.

(** What [Consume] marks and returns does not depend on what was logged
    before. *)
Lemma Consume_log_irrelevant topic groupID sessions : ∀ c log log' mk,
  (Consume topic groupID sessions c log mk).1.2 =
    (Consume topic groupID sessions c log' mk).1.2 ∧
  (Consume topic groupID sessions c log mk).2 =
    (Consume topic groupID sessions c log' mk).2.
Proof.
  induction sessions as [|s sessions IH]; intros c log log' mk; [done|].
  cbn [Consume].
  destruct (run_session_same_but_log topic groupID s c log log' mk)
    as [(Hclaims & Hcancelled & Hmarked) Hresult].
  destruct (run_session topic groupID s c log mk) as [ss r].
  destruct (run_session topic groupID s c log' mk) as [ss' r'].
  simpl in *. subst r'. destruct r as [[err|]|]; simpl; [by rewrite Hmarked..| |by rewrite Hmarked].
  rewrite <- Hcancelled. destruct (cancelled ss); simpl; [by rewrite Hmarked|].
  rewrite <- Hmarked. apply IH.
Qed.

(** Whatever [MAX_MESSAGES] is set to, a run of the consumer marks the same
    messages and ends in the same way. *)
Lemma main_ignores_max_messages (value : string) (w : World) :
  run_marked (main (with_max_messages value w)) = run_marked (main w) ∧
  run_exit (main (with_max_messages value w)) = run_exit (main w).
Proof.
  unfold main, with_max_messages. simpl.
  assert (∀ key, key ≠ "MAX_MESSAGES" →
    os_Getenv (godotenv_Load (<["MAX_MESSAGES" := value]> (w_env w)) (w_dotenv w)).1 key =
    os_Getenv (godotenv_Load (w_env w) (w_dotenv w)).1 key) as Henv.
  { intros key Hkey. unfold os_Getenv, godotenv_Load.
    destruct (w_dotenv w) as [file|]; simpl.
    - by rewrite <- insert_union_l, lookup_insert_ne.
    - by rewrite lookup_insert_ne. }
  assert ((godotenv_Load (<["MAX_MESSAGES" := value]> (w_env w)) (w_dotenv w)).2 =
          (godotenv_Load (w_env w) (w_dotenv w)).2) as Hloaded.
  { by destruct (w_dotenv w). }
  destruct (godotenv_Load (<["MAX_MESSAGES" := value]> (w_env w)) (w_dotenv w))
    as [env' loaded'].
  destruct (godotenv_Load (w_env w) (w_dotenv w)) as [env loaded].
  simpl in Henv, Hloaded. subst loaded'.
  assert (∀ key d, key ≠ "MAX_MESSAGES" → getEnv env' key d = getEnv env key d) as Hget.
  { intros key d Hkey. unfold getEnv. by rewrite Henv. }
  rewrite !(Hget "KAFKA_TOPIC"), !(Hget "KAFKA_GROUP_ID") by done.
  destruct (w_connect w) as [err|]; [done|].
  match goal with |- context [Consume ?t ?g ?ss ?c ?l1 ?m] =>
    match goal with |- context [Consume t g ss c ?l2 m] =>
      assert_fails (constr_eq l1 l2);
      destruct (Consume_log_irrelevant t g ss c l1 l2 m) as [Hm Hr];
      destruct (Consume t g ss c l1 m) as [[lg1 mk1] r1];
      destruct (Consume t g ss c l2 m) as [[lg2 mk2] r2]
    end
  end.
  simpl in Hm, Hr. subst. by destruct r2.
Qed.

End MaxMessages.

(** C1, on the code: with [MAX_MESSAGES=3] the consumer announces the bound
    and then does not apply it: a claim that is handed four messages before
    the process is interrupted receives, logs and marks all four, and its
    summary counts four messages. *)
Theorem max_messages_is_not_applied :
  Consumer.getEnvAsInt (Consumer.w_env four_messages_world) "MAX_MESSAGES" 0 = 3 ∧
  Consumer.run_marked (Consumer.main four_messages_world) =
    [message "user-123" 2 0; message "user-456" 0 0;
     message "user-789" 1 0; message "user-123" 2 1] ∧
  drop 4 (Consumer.run_log (Consumer.main four_messages_world)) =
    ["Max Messages: 3"; "";
     "This demo shows how messages with the same keys (user IDs) come from the same partitions:";
     "- All messages for user-123 will come from the same partition";
     "- All messages for user-456 will come from the same partition";
     "- All messages for user-789 will come from the same partition";
     "- etc."; ""; "Starting to consume messages...";
     "Consumer setup completed for topic: test-topic, group: test-consumer-group";
     "Message #1 received - Partition: 2, Offset: 0, Key: user-123, Value: {...}";
     "Message #2 received - Partition: 0, Offset: 0, Key: user-456, Value: {...}";
     "Message #3 received - Partition: 1, Offset: 0, Key: user-789, Value: {...}";
     "Message #4 received - Partition: 2, Offset: 1, Key: user-123, Value: {...}";
     "Received shutdown signal, stopping consumer..."; "";
     "=== Partition Distribution Summary ===";
     "User user-789: 1 messages all came from partition(s) [1]";
     "User user-123: 2 messages all came from partition(s) [2]";
     "User user-456: 1 messages all came from partition(s) [0]";
     "=====================================";
     "Consumer cleanup completed for topic: test-topic, group: test-consumer-group";
     "Error consuming messages: context canceled"].
Proof. vm_compute. repeat split; reflexivity. Qed.

(** C3, on the code: the flag that guards the summary is a local variable of
    [ConsumeClaim], so every call has its own. One process prints the summary
    twice when its group is rebalanced once (one claim per session), and
    twice when one session gives it two partitions. *)
Theorem summary_printed_once_per_claim_call :
  summaries_printed (Consumer.run_log (Consumer.main rebalanced_world)) = 2%nat ∧
  summaries_printed (Consumer.run_log (Consumer.main two_claims_world)) = 2%nat.
Proof. vm_compute. split; reflexivity. Qed.

Section Claim.

Import Consumer.

(** One call of [ConsumeClaim] does print its summary at most once: the lines
    of every pass but the last are receipts, and the last pass prints the
    summary or nothing. *)
Lemma claim_body_continue_lines o st sel st' lines m :
  claim_body o st sel = Continue st' lines m →
  summaries_printed lines = 0%nat.
Proof.
  destruct sel as [[message|]|]; simpl.
  - intros [= <- <- <-]. reflexivity.
  - unfold show_once_and_return. by destruct (_ && _).
  - unfold show_once_and_return. by destruct (_ && _).
Qed.

Lemma showPartitionSummary_one_header o (m : gmap string (list Z)) :
  summaries_printed (showPartitionSummary o m) = 1%nat.
Proof.
  unfold showPartitionSummary, summaries_printed.
  rewrite !filter_app, !length_app.
  replace (length (filter _ (_ <$> user_order o (map_to_list m)))) with 0%nat; [done|].
  symmetry. apply length_zero_iff_nil.
  induction (user_order o (map_to_list m)) as [|[u ps] l IH]; [done|].
  rewrite fmap_cons, filter_cons_False; [exact IH|].
  simpl. discriminate.
Qed.

Lemma claim_loop_summaries o selects : ∀ st,
  (summaries_printed (claim_loop o selects st).1.1.1 ≤ 1)%nat.
Proof.
  induction selects as [|sel selects IH]; intros st; simpl; [by compute; lia|].
  destruct (claim_body o st sel) as [st' lines m|st' lines] eqn:Hbody.
  - specialize (IH st').
    destruct (claim_loop o selects st') as [[[ls ms] final] returned]. simpl in *.
    unfold summaries_printed in *. rewrite filter_app, length_app.
    pose proof (claim_body_continue_lines _ _ _ _ _ _ Hbody) as H0.
    unfold summaries_printed in H0. lia.
  - simpl.
    assert (lines = showPartitionSummary o (partitionMap st) ∨ lines = []) as [->| ->].
    { destruct sel as [[message|]|]; simpl in Hbody; try discriminate;
        unfold show_once_and_return in Hbody;
        destruct (_ && _); injection Hbody as _ <-; auto. }
    + by rewrite showPartitionSummary_one_header.
    + compute. lia.
Qed.

End Claim.

(** * The summary routines *)

Section Summary.

Implicit Types (o : RangeOrder) (m : gmap string (list Z)) (ps : list Z).

Lemma range_ok_listing : range_ok listing_order.
Proof. by split. Qed.

Lemma range_ok_reverse : range_ok reverse_order.
Proof. split; intros; simpl; by rewrite reverse_Permutation. Qed.

(** The routines lay out the entries between the header and the footer. *)
Lemma showPartitionSummary_layout o m :
  Consumer.showPartitionSummary o m =
  [""; "=== Partition Distribution Summary ==="] ++
  (came_from_line <$> summary_entries o m) ++
  ["====================================="].
Proof.
  unfold Consumer.showPartitionSummary, summary_entries.
  rewrite <- list_fmap_compose. do 2 f_equal.
  apply list_fmap_ext. by intros _ [u ps] _.
Qed.

Lemma showProducerPartitionSummary_layout o m :
  Producer.showProducerPartitionSummary o m =
  [""; "=== Partition Distribution Summary ==="] ++
  (went_to_line <$> summary_entries o m) ++
  ["======================================"].
Proof.
  unfold Producer.showProducerPartitionSummary, summary_entries.
  rewrite <- list_fmap_compose. do 2 f_equal.
  apply list_fmap_ext. by intros _ [u ps] _.
Qed.

(** The set built by the inner loop holds the partitions of the list. *)
Lemma uniquePartitions_lookup ps (p : Z) :
  is_Some (uniquePartitions ps !! p) ↔ p ∈ ps.
Proof.
  unfold uniquePartitions.
  assert (∀ acc : gmap Z bool,
    is_Some (foldl (λ u q, <[q := true]> u) acc ps !! p) ↔ p ∈ ps ∨ is_Some (acc !! p)) as H.
  { induction ps as [|q ps IH]; intros acc; simpl.
    - rewrite elem_of_nil. tauto.
    - rewrite IH, elem_of_cons, lookup_insert_is_Some.
      destruct (decide (q = p)) as [->|Hne]; [tauto|].
      split; [intros [?|[?|[_ ?]]]|intros [[?|?]|?]]; auto; congruence. }
  rewrite H, lookup_empty. split; [intros [?|[? [=]]]|]; auto.
Qed.

Lemma elem_of_uniqueParts o userID ps (p : Z) :
  range_ok o → p ∈ uniqueParts o userID ps ↔ p ∈ ps.
Proof.
  intros [_ Hp]. unfold uniqueParts. rewrite (Hp userID _).
  rewrite list_elem_of_fmap. split.
  - intros [[q b] [-> Hin]]. apply elem_of_map_to_list in Hin.
    apply uniquePartitions_lookup. by eexists.
  - intros [b Hb]%uniquePartitions_lookup. exists (p, b).
    split; [done|]. by apply elem_of_map_to_list.
Qed.

(** A user seen on one partition has one partition listed, whatever the
    order of the iteration. *)
Lemma uniqueParts_single o1 o2 userID ps :
  range_ok o1 → range_ok o2 →
  (∀ p q, p ∈ ps → q ∈ ps → p = q) →
  uniqueParts o1 userID ps = uniqueParts o2 userID ps.
Proof.
  intros [_ Hp1] [_ Hp2] Hsingle. unfold uniqueParts.
  pose proof (Hp1 userID (map_to_list (uniquePartitions ps)).*1) as H1.
  pose proof (Hp2 userID (map_to_list (uniquePartitions ps)).*1) as H2.
  pose proof (NoDup_fst_map_to_list (uniquePartitions ps)) as Hnodup.
  assert (∀ p, p ∈ (map_to_list (uniquePartitions ps)).*1 → p ∈ ps) as Hin.
  { intros p [[q b] [-> Hq]]%list_elem_of_fmap.
    apply elem_of_map_to_list in Hq. apply uniquePartitions_lookup. by eexists. }
  destruct ((map_to_list (uniquePartitions ps)).*1) as [|a [|b keys]].
  - apply Permutation_nil_r in H1. apply Permutation_nil_r in H2. congruence.
  - apply Permutation_singleton_r in H1. apply Permutation_singleton_r in H2. congruence.
  - exfalso. apply NoDup_cons in Hnodup as [Hab _]. apply Hab.
    rewrite (Hsingle a b); [left| |]; apply Hin; set_solver.
Qed.

Lemma reported_entry o userID ps :
  range_ok o →
  reported (userID, length ps, uniqueParts o userID ps) = (userID, length ps, list_to_set ps).
Proof.
  intros Ho. unfold reported. simpl. f_equal.
  apply set_eq. intros p. rewrite !elem_of_list_to_set. by apply elem_of_uniqueParts.
Qed.

Lemma reported_summary_entries o m :
  range_ok o →
  reported <$> summary_entries o m ≡ₚ
  (λ '(userID, ps), (userID, length ps, list_to_set ps)) <$> map_to_list m.
Proof.
  intros Ho. unfold summary_entries. rewrite <- list_fmap_compose.
  rewrite <- (proj1 Ho (map_to_list m)) at 2.
  apply eq_subrelation; [apply _|].
  apply list_fmap_ext. intros _ [u ps] _. simpl. by apply reported_entry.
Qed.

Lemma summary_entries_single o1 o2 m :
  range_ok o1 → range_ok o2 → single_partition m →
  summary_entries o1 m ≡ₚ summary_entries o2 m.
Proof.
  intros Ho1 Ho2 Hsingle. unfold summary_entries.
  transitivity ((λ '(userID, ps), (userID, length ps, uniqueParts o1 userID ps))
                <$> map_to_list m).
  { by rewrite (proj1 Ho1 (map_to_list m)). }
  rewrite (proj1 Ho2 (map_to_list m)).
  apply eq_subrelation; [apply _|].
  apply list_fmap_ext. intros j [u ps] Hlookup. f_equal.
  apply uniqueParts_single; [done..|].
  apply list_elem_of_lookup_2, elem_of_map_to_list in Hlookup.
  intros p q. by apply (Hsingle u ps).
Qed.

Lemma summary_entries_single_user o1 o2 m :
  range_ok o1 → range_ok o2 → single_partition m → (size m ≤ 1)%nat →
  summary_entries o1 m = summary_entries o2 m.
Proof.
  intros Ho1 Ho2 Hsingle Hsize.
  pose proof (summary_entries_single o1 o2 m Ho1 Ho2 Hsingle) as Hperm.
  assert (length (summary_entries o1 m) ≤ 1)%nat as Hlen.
  { unfold summary_entries. rewrite length_fmap, (proj1 Ho1 (map_to_list m)).
    by rewrite length_map_to_list. }
  destruct (summary_entries o1 m) as [|e [|e' l]]; simpl in Hlen; [| |lia].
  - by apply Permutation_nil_l.
  - by apply Permutation_singleton_l.
Qed.

End Summary.

(** C7, as it is stated, fails: the routine ranges over a map, and two calls
    on the same record of two users that visit the users in opposite orders
    print their lines in opposite orders. *)
Lemma summary_twice_differs :
  range_ok listing_order ∧ range_ok reverse_order ∧
  Consumer.showPartitionSummary listing_order two_users =
    [""; "=== Partition Distribution Summary ===";
     "User user-123: 2 messages all came from partition(s) [2]";
     "User user-456: 1 messages all came from partition(s) [0]";
     "====================================="] ∧
  Consumer.showPartitionSummary reverse_order two_users =
    [""; "=== Partition Distribution Summary ===";
     "User user-456: 1 messages all came from partition(s) [0]";
     "User user-123: 2 messages all came from partition(s) [2]";
     "====================================="] ∧
  Producer.showProducerPartitionSummary listing_order two_users =
    [""; "=== Partition Distribution Summary ===";
     "User user-123: 2 messages all went to partition(s) [2]";
     "User user-456: 1 messages all went to partition(s) [0]";
     "======================================"] ∧
  Producer.showProducerPartitionSummary reverse_order two_users =
    [""; "=== Partition Distribution Summary ===";
     "User user-456: 1 messages all went to partition(s) [0]";
     "User user-123: 2 messages all went to partition(s) [2]";
     "======================================"].
Proof.
  split; [apply range_ok_listing|]. split; [apply range_ok_reverse|].
  vm_compute. repeat split; reflexivity.
Qed.

(** A user seen on two partitions: the partitions inside the line change
    places as well. *)
Example summary_twice_differs_in_a_line :
  Consumer.showPartitionSummary listing_order {[ "user-123" := [2; 0; 2] ]} !! 2%nat =
    Some "User user-123: 3 messages all came from partition(s) [2 0]" ∧
  Consumer.showPartitionSummary reverse_order {[ "user-123" := [2; 0; 2] ]} !! 2%nat =
    Some "User user-123: 3 messages all came from partition(s) [0 2]".
Proof. vm_compute. split; reflexivity. Qed.

(** C7, amended: two calls of a summary routine on the same unchanged record
    print the same header and footer and, between them, one line for each
    user of the record; the two calls report the same users, each with the
    same number of messages and the same set of partitions. The order of the
    lines, and of the partitions inside a line, is the order in which the
    maps are iterated in that call and may differ between the two. When every
    user of the record has been seen on one partition only, the two outputs
    hold the same lines, in some order, and when the record moreover has at
    most one user they are identical. *)
Theorem summary_twice_same_report (o1 o2 : RangeOrder) (m : gmap string (list Z)) :
  range_ok o1 → range_ok o2 →
  (∀ o, Consumer.showPartitionSummary o m =
        [""; "=== Partition Distribution Summary ==="] ++
        (came_from_line <$> summary_entries o m) ++
        ["====================================="]) ∧
  (∀ o, Producer.showProducerPartitionSummary o m =
        [""; "=== Partition Distribution Summary ==="] ++
        (went_to_line <$> summary_entries o m) ++
        ["======================================"]) ∧
  length (summary_entries o1 m) = size m ∧
  length (summary_entries o2 m) = size m ∧
  reported <$> summary_entries o1 m ≡ₚ reported <$> summary_entries o2 m ∧
  (single_partition m →
     Consumer.showPartitionSummary o1 m ≡ₚ Consumer.showPartitionSummary o2 m ∧
     Producer.showProducerPartitionSummary o1 m ≡ₚ
       Producer.showProducerPartitionSummary o2 m) ∧
  (single_partition m → (size m ≤ 1)%nat →
     Consumer.showPartitionSummary o1 m = Consumer.showPartitionSummary o2 m ∧
     Producer.showProducerPartitionSummary o1 m =
       Producer.showProducerPartitionSummary o2 m).
Proof.
  intros Ho1 Ho2.
  split; [intros o; apply showPartitionSummary_layout|].
  split; [intros o; apply showProducerPartitionSummary_layout|].
  assert (∀ o, range_ok o → length (summary_entries o m) = size m) as Hlen.
  { intros o Ho. unfold summary_entries.
    by rewrite length_fmap, (proj1 Ho (map_to_list m)), length_map_to_list. }
  split; [by apply Hlen|]. split; [by apply Hlen|]. split; [|split].
  - by rewrite !reported_summary_entries.
  - intros Hsingle.
    rewrite !showPartitionSummary_layout, !showProducerPartitionSummary_layout.
    by rewrite (summary_entries_single o1 o2 m).
  - intros Hsingle Hsize.
    rewrite !showPartitionSummary_layout, !showProducerPartitionSummary_layout.
    by rewrite (summary_entries_single_user o1 o2 m).
Qed.

Lemma single_partition_one_user : single_partition one_user.
Proof.
  intros userID partitions p q Hlookup Hp Hq. unfold one_user in Hlookup.
  apply lookup_singleton_Some in Hlookup as [_ <-].
  assert (∀ x : Z, x ∈ [1; 1; 1; 1; 1] → x = 1) as Hone.
  { intros x Hx. repeat (apply elem_of_cons in Hx as [->|Hx]; [done|]).
    by apply elem_of_nil in Hx. }
  by rewrite (Hone p Hp), (Hone q Hq).
Qed.

(** One user on one partition, printed in the two orders. *)
Lemma summary_twice_same_report_witness :
  Consumer.showPartitionSummary listing_order one_user =
    Consumer.showPartitionSummary reverse_order one_user ∧
  Producer.showProducerPartitionSummary listing_order one_user =
    Producer.showProducerPartitionSummary reverse_order one_user.
Proof.
  apply (summary_twice_same_report listing_order reverse_order one_user
           range_ok_listing range_ok_reverse).
  - apply single_partition_one_user.
  - unfold one_user. rewrite map_size_singleton. lia.
Defined.

(** The scenario of the design document, five messages of one user, printed
    by the producer. *)
Example one_user_summary :
  Producer.showProducerPartitionSummary reverse_order one_user =
  [""; "=== Partition Distribution Summary ===";
   "User user-123: 5 messages all went to partition(s) [1]";
   "======================================"].
Proof. vm_compute. reflexivity. Qed.

(** * More on the event generator *)

Section GeneratorMore.

Implicit Types (count i : Z) (clk : Clock) (n k : nat) (e : UserEvent).

Lemma generate_loop_clock n : ∀ i clk events k,
  (generate_loop n i clk events).2 k = clk (n + k)%nat.
Proof.
  induction n as [|n IH]; intros i clk events k; simpl; [done|].
  by rewrite IH.
Qed.

(** Every event of a generated sequence is the body of the loop at its
    index. *)
Lemma generateUserEvents_elem count clk e :
  e ∈ (generateUserEvents count clk).1 →
  ∃ k, (k < Z.to_nat count)%nat ∧ e = make_event (Z.of_nat k) (clk k).
Proof.
  intros [k Hk]%list_elem_of_lookup.
  exists k. by apply generateUserEvents_lookup_inv.
Qed.

(** The position in the two cycles, by the index modulo six. *)
Lemma cycle_by_six i :
  0 ≤ i →
  (cycle users i, cycle eventTypes i) ∈ type_pairs.
Proof.
  intros Hi. unfold cycle.
  change (Z.of_nat (length users)) with 3.
  change (Z.of_nat (length eventTypes)) with 6.
  rewrite !Z.rem_mod_nonneg by lia.
  assert (i `mod` 3 = (i `mod` 6) `mod` 3) as ->.
  { symmetry. apply Z.mod_mod_divide. by exists 2. }
  pose proof (Z.mod_pos_bound i 6 ltac:(lia)) as Hr.
  assert (i `mod` 6 = 0 ∨ i `mod` 6 = 1 ∨ i `mod` 6 = 2 ∨
          i `mod` 6 = 3 ∨ i `mod` 6 = 4 ∨ i `mod` 6 = 5) as Hcases by lia.
  unfold type_pairs.
  clear Hr. apply list_elem_of_In.
  repeat (destruct Hcases as [Hc|Hcases]; [rewrite Hc; simpl; auto 10|]).
  rewrite Hcases. simpl. auto 10.
Qed.

(** The event type of the event at a non-negative index is one of the six. *)
Lemma make_event_type i now :
  0 ≤ i →
  EventType (make_event i now) ∈ eventTypes.
Proof.
  intros Hi. simpl EventType.
  apply (list_elem_of_lookup_2 _ (Z.to_nat (i `mod` Z.of_nat (length eventTypes)))).
  by apply cycle_lookup.
Qed.

(** The attributes of an event, by its type. *)
Lemma make_event_data i now :
  0 ≤ i →
  Data (make_event i now) !! "session_id" = Some ("session-" +:+ fmt_d i) ∧
  Data (make_event i now) !! "ip_address" = Some ("192.168.1." +:+ fmt_d (i `rem` 254 + 1)) ∧
  Data (make_event i now) !! "user_agent" =
    Some "Mozilla/5.0 (Macintosh; Intel Mac OS X 10_15_7)" ∧
  (is_Some (Data (make_event i now) !! "amount") ↔ EventType (make_event i now) = "purchase") ∧
  (is_Some (Data (make_event i now) !! "product_id") ↔
     EventType (make_event i now) = "purchase") ∧
  (is_Some (Data (make_event i now) !! "query") ↔ EventType (make_event i now) = "search").
Proof.
  intros Hi. pose proof (make_event_type i now Hi) as Htype.
  unfold make_event in *. simpl in Htype |- *.
  unfold eventTypes in Htype at 2.
  repeat (apply elem_of_cons in Htype as [->|Htype];
    [simpl; rewrite ?lookup_insert_ne, ?lookup_insert_eq, ?lookup_empty by done;
     repeat split; try done; try (by intros [? [=]]); try (by eexists)|]).
  by apply elem_of_nil in Htype.
Qed.

(** The attributes that depend on the type. *)
Lemma make_event_typed_data i now :
  0 ≤ i →
  (EventType (make_event i now) = "purchase" →
   Data (make_event i now) !! "amount" = Some (fmt_2f_hundredths (i `rem` 1000 + 1)) ∧
   Data (make_event i now) !! "product_id" = Some ("prod-" +:+ fmt_d (i `rem` 100 + 1))) ∧
  (EventType (make_event i now) = "search" →
   Data (make_event i now) !! "query" = Some ("search term " +:+ fmt_d (i + 1))).
Proof.
  intros Hi. pose proof (make_event_type i now Hi) as Htype.
  unfold make_event in *. simpl in Htype |- *.
  unfold eventTypes in Htype at 2.
  repeat (apply elem_of_cons in Htype as [->|Htype];
    [simpl; rewrite ?lookup_insert_ne, ?lookup_insert_eq, ?lookup_empty by done;
     by repeat split|]).
  by apply elem_of_nil in Htype.
Qed.

End GeneratorMore.

(** X1: the generator reads the clock once for each event it returns and no
    more; a count that is zero or negative gives no event and leaves the
    clock unread. *)
Theorem generateUserEvents_reads_clock_per_event (count : Z) (clk : Clock) :
  length (generateUserEvents count clk).1 = Z.to_nat count ∧
  (count ≤ 0 → generateUserEvents count clk = ([], clk)) ∧
  ∀ k, (generateUserEvents count clk).2 k = clk (Z.to_nat count + k)%nat.
Proof.
  split; [apply generateUserEvents_length|]. split.
  - intros Hcount. unfold generateUserEvents.
    by replace (Z.to_nat count) with 0%nat by lia.
  - intros k. apply generate_loop_clock.
Qed.

(** X2: in every generated sequence the event type fixes the user: the two
    lists are cycled in step, so each type comes with one user only, and
    every purchase is made by the second user. *)
Theorem event_type_determines_user (count : Z) (clk : Clock) (e : UserEvent) :
  e ∈ (generateUserEvents count clk).1 →
  (UserID e, EventType e) ∈ type_pairs ∧
  (EventType e = "purchase" → UserID e = "user-456") ∧
  (EventType e = "search" → UserID e = "user-456").
Proof.
  intros (k & _ & ->)%generateUserEvents_elem.
  pose proof (cycle_by_six (Z.of_nat k) ltac:(lia)) as Hpair.
  simpl UserID. simpl EventType. split; [done|].
  unfold type_pairs in Hpair.
  repeat (apply elem_of_cons in Hpair as [[= -> ->]|Hpair]; [by split|]).
  by apply elem_of_nil in Hpair.
Qed.

(** The fifth event of a run of five is a search, by the second user. *)
Lemma event_type_determines_user_witness :
  (UserID fifth_event, EventType fifth_event) ∈ type_pairs ∧
  (EventType fifth_event = "purchase" → UserID fifth_event = "user-456") ∧
  (EventType fifth_event = "search" → UserID fifth_event = "user-456").
Proof.
  apply (event_type_determines_user 5 drifting_clock).
  apply (list_elem_of_lookup_2 _ 4). reflexivity.
Defined.

(** X3: every generated event carries a session id, an IP address and the
    user agent; it carries an amount and a product id exactly when it is a
    purchase, and a query exactly when it is a search. *)
Theorem event_attributes_by_type (count : Z) (clk : Clock) (e : UserEvent) :
  e ∈ (generateUserEvents count clk).1 →
  is_Some (Data e !! "session_id") ∧
  is_Some (Data e !! "ip_address") ∧
  Data e !! "user_agent" = Some "Mozilla/5.0 (Macintosh; Intel Mac OS X 10_15_7)" ∧
  (is_Some (Data e !! "amount") ↔ EventType e = "purchase") ∧
  (is_Some (Data e !! "product_id") ↔ EventType e = "purchase") ∧
  (is_Some (Data e !! "query") ↔ EventType e = "search").
Proof.
  intros (k & _ & ->)%generateUserEvents_elem.
  destruct (make_event_data (Z.of_nat k) (clk k) ltac:(lia))
    as (Hsession & Hip & Hagent & Hamount & Hproduct & Hquery).
  rewrite Hsession, Hip. by repeat (split; [by eauto|]).
Qed.

(** The fifth event of a run of five has a query and no amount. *)
Lemma event_attributes_by_type_witness :
  is_Some (Data fifth_event !! "session_id") ∧
  is_Some (Data fifth_event !! "ip_address") ∧
  Data fifth_event !! "user_agent" = Some "Mozilla/5.0 (Macintosh; Intel Mac OS X 10_15_7)" ∧
  (is_Some (Data fifth_event !! "amount") ↔ EventType fifth_event = "purchase") ∧
  (is_Some (Data fifth_event !! "product_id") ↔ EventType fifth_event = "purchase") ∧
  (is_Some (Data fifth_event !! "query") ↔ EventType fifth_event = "search").
Proof.
  apply (event_attributes_by_type 5 drifting_clock).
  apply (list_elem_of_lookup_2 _ 4). reflexivity.
Defined.

(** X4: the session ids of two different positions of one generated sequence
    are different. *)
Theorem session_ids_are_distinct (count : Z) (clk : Clock) (i j : nat) (e1 e2 : UserEvent) :
  (generateUserEvents count clk).1 !! i = Some e1 →
  (generateUserEvents count clk).1 !! j = Some e2 →
  i ≠ j →
  Data e1 !! "session_id" ≠ Data e2 !! "session_id".
Proof.
  intros [_ ->]%generateUserEvents_lookup_inv [_ ->]%generateUserEvents_lookup_inv Hij.
  destruct (make_event_data (Z.of_nat i) (clk i) ltac:(lia)) as [-> _].
  destruct (make_event_data (Z.of_nat j) (clk j) ltac:(lia)) as [-> _].
  intros [= Heq].
  change (pretty (Z.of_nat i) = pretty (Z.of_nat j)) in Heq.
  apply (inj (pretty (A:=Z))) in Heq. lia.
Qed.

(** The first and the fifth event of a run of five. *)
Lemma session_ids_are_distinct_witness :
  (0 ≠ 4)%nat ∧
  Data (make_event 0 (drifting_clock 0%nat)) !! "session_id" ≠
    Data fifth_event !! "session_id".
Proof.
  split; [lia|].
  apply (session_ids_are_distinct 5 drifting_clock 0 4); [reflexivity | reflexivity | lia].
Defined.

(** X5: the numbers in the attributes stay in their ranges however long the
    sequence is: the last part of the IP address is between 1 and 254, the
    product id of a purchase between 1 and 100 and its amount between 0.01
    and 10.00 (1 to 1000 hundredths), and the query of the search at
    position [i] is numbered [i + 1]. *)
Theorem event_attribute_bounds (count : Z) (clk : Clock) (k : nat) (e : UserEvent) :
  (generateUserEvents count clk).1 !! k = Some e →
  (∃ host, 1 ≤ host ≤ 254 ∧
     Data e !! "ip_address" = Some ("192.168.1." +:+ fmt_d host)) ∧
  (EventType e = "purchase" →
   ∃ product hundredths, 1 ≤ product ≤ 100 ∧ 1 ≤ hundredths ≤ 1000 ∧
     Data e !! "product_id" = Some ("prod-" +:+ fmt_d product) ∧
     Data e !! "amount" = Some (fmt_2f_hundredths hundredths)) ∧
  (EventType e = "search" →
   Data e !! "query" = Some ("search term " +:+ fmt_d (Z.of_nat k + 1))).
Proof.
  intros [_ ->]%generateUserEvents_lookup_inv.
  destruct (make_event_data (Z.of_nat k) (clk k) ltac:(lia)) as (_ & Hip & _).
  destruct (make_event_typed_data (Z.of_nat k) (clk k) ltac:(lia)) as [Hpurchase Hsearch].
  split; [|split].
  - exists (Z.of_nat k `rem` 254 + 1). split; [|done].
    pose proof (Z.rem_bound_pos (Z.of_nat k) 254 ltac:(lia) ltac:(lia)). lia.
  - intros Htype. destruct (Hpurchase Htype) as [Hamount Hproduct].
    exists (Z.of_nat k `rem` 100 + 1), (Z.of_nat k `rem` 1000 + 1).
    pose proof (Z.rem_bound_pos (Z.of_nat k) 100 ltac:(lia) ltac:(lia)).
    pose proof (Z.rem_bound_pos (Z.of_nat k) 1000 ltac:(lia) ltac:(lia)).
    repeat split; (done || lia).
  - done.
Qed.

(** The fifth event of a run of five. *)
Lemma event_attribute_bounds_witness :
  (∃ host, 1 ≤ host ≤ 254 ∧
     Data fifth_event !! "ip_address" = Some ("192.168.1." +:+ fmt_d host)) ∧
  (EventType fifth_event = "purchase" →
   ∃ product hundredths, 1 ≤ product ≤ 100 ∧ 1 ≤ hundredths ≤ 1000 ∧
     Data fifth_event !! "product_id" = Some ("prod-" +:+ fmt_d product) ∧
     Data fifth_event !! "amount" = Some (fmt_2f_hundredths hundredths)) ∧
  (EventType fifth_event = "search" →
   Data fifth_event !! "query" = Some ("search term " +:+ fmt_d (Z.of_nat 4 + 1))).
Proof. apply (event_attribute_bounds 5 drifting_clock 4). reflexivity. Defined.

Example fifth_event_query : Data fifth_event !! "query" = Some "search term 5".
Proof. reflexivity. Qed.

(** * More on the configuration *)

Section ConfigMore.

Implicit Types (env : gmap string string) (s key value : string) (c sep : ascii).

Lemma strings_Split_not_nil s sep : strings_Split s sep ≠ [].
Proof.
  destruct s as [|c s]; simpl; [done|].
  destruct (Ascii.eqb c sep); [done|]. by destruct (strings_Split s sep).
Qed.

(** Joining the fields with the separator gives the string back. *)
Lemma strings_Split_join s sep :
  String.concat (String sep EmptyString) (strings_Split s sep) = s.
Proof.
  induction s as [|c s IH]; simpl; [done|].
  pose proof (strings_Split_not_nil s sep) as Hne.
  destruct (Ascii.eqb_spec c sep) as [->|_].
  - destruct (strings_Split s sep) as [|field fields]; [done|].
    simpl in IH |- *. by rewrite IH.
  - destruct (strings_Split s sep) as [|field fields]; [done|].
    destruct fields as [|field' fields]; simpl in IH |- *; by rewrite <- IH.
Qed.

(** No field holds the separator. *)
Lemma strings_Split_fields s sep field :
  field ∈ strings_Split s sep → sep ∉ chars field.
Proof.
  revert field. induction s as [|c s IH]; intros field; simpl.
  - intros ->%list_elem_of_singleton. apply not_elem_of_nil.
  - destruct (Ascii.eqb_spec c sep) as [->|Hc].
    + intros [->|Hin]%elem_of_cons; [apply not_elem_of_nil|by apply IH].
    + destruct (strings_Split s sep) as [|first fields]; simpl.
      * intros ->%list_elem_of_singleton. unfold chars. simpl.
        intros [->|[]%elem_of_nil]%elem_of_cons. done.
      * intros [->|Hin]%elem_of_cons.
        -- unfold chars. simpl. intros [->|Hin]%elem_of_cons; [done|].
           by apply (IH first); [left|].
        -- apply IH. by right.
Qed.

(** A character that is not a digit anywhere in the digits makes the parse
    fail. *)
Lemma parse_digits_not_a_digit s c : ∀ acc,
  c ∈ chars s → digit_value c = None → parse_digits s acc = None.
Proof.
  induction s as [|c' s IH]; intros acc Hin Hc; unfold chars in Hin; simpl in *.
  - by apply elem_of_nil in Hin.
  - apply elem_of_cons in Hin as [<-|Hin]; [by rewrite Hc|].
    destruct (digit_value c'); [by apply IH|done].
Qed.

Lemma strconv_Atoi_parse s :
  strconv_Atoi s = None ∨
  ∃ body, (s = body ∨ s = String "-"%char body ∨ s = String "+"%char body) ∧
    is_Some (parse_digits body 0).
Proof.
  unfold strconv_Atoi.
  destruct s as [|c s]; [by left|].
  destruct (Ascii.eqb_spec c "-"%char) as [->|Hminus].
  { destruct s as [|c' s]; [by left|].
    destruct (parse_digits (String c' s) 0) eqn:Hparse; [|by left].
    right. exists (String c' s). rewrite Hparse. eauto. }
  destruct (Ascii.eqb_spec c "+"%char) as [->|Hplus].
  { destruct s as [|c' s]; [by left|].
    destruct (parse_digits (String c' s) 0) eqn:Hparse; [|by left].
    right. exists (String c' s). rewrite Hparse. eauto. }
  assert (match String c s with
          | String "-"%char rest => (true, rest)
          | String "+"%char rest => (false, rest)
          | _ => (false, String c s)
          end = (false, String c s)) as ->.
  { destruct c as [[] [] [] [] [] [] [] []]; done. }
  destruct (parse_digits (String c s) 0) eqn:Hparse; [|by left].
  right. exists (String c s). rewrite Hparse. eauto.
Qed.

(** A value with a character that is neither a digit nor a sign does not
    parse: no blank, no underscore, no letter. *)
Lemma strconv_Atoi_not_a_digit s c :
  c ∈ chars s → digit_value c = None → c ≠ "-"%char → c ≠ "+"%char →
  strconv_Atoi s = None.
Proof.
  intros Hin Hc Hminus Hplus.
  destruct (strconv_Atoi_parse s) as [?|(body & Hbody & [n Hn])]; [done|].
  exfalso. assert (c ∈ chars body) as Hin'.
  { destruct Hbody as [->|[->| ->]]; [done|..];
      unfold chars in Hin; simpl in Hin;
      by apply elem_of_cons in Hin as [?|?]. }
  by rewrite (parse_digits_not_a_digit body c 0 Hin' Hc) in Hn.
Qed.

(** The numeral of an integer parses to it when it fits an [int], and does
    not parse otherwise. *)
Lemma strconv_Atoi_fmt_d_range (n : Z) :
  strconv_Atoi (fmt_d n) =
  if (- 2 ^ 63 <=? n) && (n <? 2 ^ 63) then Some n else None.
Proof.
  unfold fmt_d, pretty, pretty_Z.
  destruct n as [|p|p]; [reflexivity| |].
  - unfold pretty, pretty_positive, pretty, pretty_N.
    destruct (decide (N.pos p = 0)%N) as [|_]; [done|].
    destruct (pretty_go_head (N.pos p) "") as (d & rest & Hd & Heq); [lia|].
    pose proof (parse_digits_pretty_go (N.pos p) "") as Hparse.
    rewrite Heq in Hparse |- *. simpl parse_digits at 2 in Hparse.
    by rewrite (strconv_Atoi_digits d rest Hd), Hparse.
  - unfold pretty, pretty_positive, pretty, pretty_N.
    destruct (decide (N.pos p = 0)%N) as [|_]; [done|].
    destruct (pretty_go_head (N.pos p) "") as (d & rest & Hd & Heq); [lia|].
    pose proof (parse_digits_pretty_go (N.pos p) "") as Hparse.
    rewrite Heq in Hparse |- *. simpl parse_digits at 2 in Hparse.
    change ("-" +:+ String (pretty_N_char d) rest)
      with (String "-"%char (String (pretty_N_char d) rest)).
    unfold strconv_Atoi. by rewrite Hparse.
Qed.

End ConfigMore.


(** X7: the broker list is the broker string cut at its commas: it is never
    empty, no address in it holds a comma, and joining the addresses with
    commas gives the string back; without [KAFKA_BROKERS] it is the three
    local brokers. *)
Theorem getBrokers_splits_at_commas (env : gmap string string) :
  Consumer.getBrokers env = Producer.getBrokers env ∧
  Producer.getBrokers env ≠ [] ∧
  String.concat "," (Producer.getBrokers env) =
    Producer.getEnv env "KAFKA_BROKERS" "localhost:9092,localhost:9094,localhost:9096" ∧
  (∀ broker, broker ∈ Producer.getBrokers env → ","%char ∉ chars broker) ∧
  (os_Getenv env "KAFKA_BROKERS" = "" →
   Producer.getBrokers env = ["localhost:9092"; "localhost:9094"; "localhost:9096"]).
Proof.
  split; [reflexivity|]. unfold Producer.getBrokers.
  split; [apply strings_Split_not_nil|].
  split; [apply strings_Split_join|].
  split; [intros broker; apply strings_Split_fields|].
  intros Hunset. unfold Producer.getEnv. by rewrite Hunset.
Qed.

(** The two brokers of [odd_env]. *)
Example getBrokers_odd_env :
  Producer.getBrokers odd_env = ["kafka-1:9092"; "kafka-2:9092"].
Proof. reflexivity. Qed.

(** X8: what [getEnvAsInt] silently replaces by the default: the numeral of
    an integer that does not fit an [int], and every value with a character
    that is neither a decimal digit nor a sign, a blank included. *)
Theorem getEnvAsInt_rejects (env : gmap string string) (key : string) (defaultValue : Z) :
  (∀ n, n < - 2 ^ 63 ∨ 2 ^ 63 ≤ n → env !! key = Some (fmt_d n) →
     Producer.getEnvAsInt env key defaultValue = defaultValue ∧
     Consumer.getEnvAsInt env key defaultValue = defaultValue) ∧
  (∀ value c, env !! key = Some value →
     c ∈ chars value → digit_value c = None → c ≠ "-"%char → c ≠ "+"%char →
     Producer.getEnvAsInt env key defaultValue = defaultValue ∧
     Consumer.getEnvAsInt env key defaultValue = defaultValue).
Proof.
  change (Consumer.getEnvAsInt env key defaultValue)
    with (Producer.getEnvAsInt env key defaultValue).
  rewrite getEnvAsInt_unfold. split.
  - intros n Hn Hkey. rewrite (os_Getenv_set _ _ _ Hkey), strconv_Atoi_fmt_d_range.
    destruct (Z.leb_spec (- 2 ^ 63) n), (Z.ltb_spec n (2 ^ 63)); simpl; (done || lia).
  - intros value c Hkey Hin Hc Hminus Hplus.
    by rewrite (os_Getenv_set _ _ _ Hkey), (strconv_Atoi_not_a_digit value c).
Qed.

(** A count of two to the power 63, and an interval with a blank in front. *)
Lemma getEnvAsInt_rejects_witness :
  (Producer.getEnvAsInt odd_env "MESSAGE_COUNT" 20 = 20 ∧
   Consumer.getEnvAsInt odd_env "MESSAGE_COUNT" 20 = 20) ∧
  (Producer.getEnvAsInt odd_env "MESSAGE_INTERVAL_MS" 500 = 500 ∧
   Consumer.getEnvAsInt odd_env "MESSAGE_INTERVAL_MS" 500 = 500).
Proof.
  split.
  - apply (proj1 (getEnvAsInt_rejects odd_env "MESSAGE_COUNT" 20) (2 ^ 63));
      [right; lia | reflexivity].
  - apply (proj2 (getEnvAsInt_rejects odd_env "MESSAGE_INTERVAL_MS" 500) " 250" " "%char);
      [reflexivity | by left | reflexivity | done | done].
Defined.

(** * The distribution record *)

Section Record.

Implicit Types (m : gmap string (list Z)) (key : string) (p : Z)
  (pairs : list (string * Z)) (o : RangeOrder).

Lemma record_lookup m key p key' :
  record m key p !! key' =
  if decide (key = key') then Some (default [] (m !! key) ++ [p]) else m !! key'.
Proof. unfold record. apply lookup_insert. Qed.

Lemma partitions_of_cons key key' p pairs :
  partitions_of key' ((key, p) :: pairs) =
  if decide (key = key') then p :: partitions_of key' pairs else partitions_of key' pairs.
Proof.
  unfold partitions_of. rewrite filter_cons. simpl.
  by destruct (decide (key = key')).
Qed.

(** After a run of observations a user's entry is what it was, followed by
    the partitions observed for that user, and no entry appears for a user
    that was not observed. *)
Lemma record_all_lookup pairs : ∀ m key,
  record_all pairs m !! key =
  match m !! key, partitions_of key pairs with
  | None, [] => None
  | old, ps => Some (default [] old ++ ps)
  end.
Proof.
  induction pairs as [|[k p] pairs IH]; intros m key.
  - simpl. destruct (m !! key); simpl; by rewrite ?app_nil_r.
  - unfold record_all in *. cbn [foldl fst snd]. rewrite IH.
    rewrite record_lookup, partitions_of_cons.
    destruct (decide (k = key)) as [->|Hne].
    + destruct (m !! key); simpl; rewrite <- ?app_assoc; simpl;
        by destruct (partitions_of key pairs).
    + done.
Qed.

Lemma record_all_empty_lookup pairs key :
  record_all pairs ∅ !! key =
  match partitions_of key pairs with [] => None | ps => Some ps end.
Proof. by rewrite record_all_lookup, lookup_empty. Qed.

(** One observation adds one partition to the record. *)
Lemma total_record m key p : total (record m key p) = S (total m).
Proof.
  unfold total, record. destruct (m !! key) as [old|] eqn:Hkey; simpl.
  - rewrite <- insert_delete_eq.
    rewrite map_to_list_insert by apply lookup_delete_eq.
    rewrite <- (map_to_list_delete m key old Hkey). simpl.
    rewrite length_app. simpl. lia.
  - by rewrite map_to_list_insert.
Qed.

Lemma total_record_all pairs : ∀ m, total (record_all pairs m) = (length pairs + total m)%nat.
Proof.
  induction pairs as [|[k p] pairs IH]; intros m; [done|].
  unfold record_all in *. cbn [foldl fst snd length]. rewrite IH, total_record. lia.
Qed.

(** The counts a summary prints add up to the size of the record. *)
Lemma total_reported_total o m : range_ok o → total_reported o m = total m.
Proof.
  intros [Hu _]. unfold total_reported, total, summary_entries.
  rewrite <- (Hu (map_to_list m)) at 2.
  induction (user_order o (map_to_list m)) as [|[u ps] l IH]; [done|].
  rewrite fmap_cons. cbn [sum_list_with fst snd]. by rewrite IH.
Qed.

(** The partitions listed for a user are those of the user's entry, each
    once. *)
Lemma NoDup_uniqueParts o userID (ps : list Z) :
  range_ok o → NoDup (uniqueParts o userID ps).
Proof.
  intros [_ Hp]. unfold uniqueParts. rewrite (Hp userID _).
  apply NoDup_fst_map_to_list.
Qed.

End Record.

(** X9: every line of a summary is about one user of the record: the count
    it prints is the number of partitions recorded for that user, and the
    partitions it lists are those recorded for the user, each listed once. *)
Theorem summary_lists_each_partition_once (o : RangeOrder) (m : gmap string (list Z))
    (userID : string) (n : nat) (parts : list Z) :
  range_ok o →
  (userID, n, parts) ∈ summary_entries o m →
  ∃ ps, m !! userID = Some ps ∧ n = length ps ∧
    NoDup parts ∧ ∀ p, p ∈ parts ↔ p ∈ ps.
Proof.
  intros Ho Hin. unfold summary_entries in Hin.
  apply list_elem_of_fmap in Hin as ([u ps] & [= -> -> ->] & Hin).
  rewrite (proj1 Ho (map_to_list m)) in Hin. apply elem_of_map_to_list in Hin.
  exists ps. split; [done|]. split; [done|].
  split; [by apply NoDup_uniqueParts|]. intros p. by apply elem_of_uniqueParts.
Qed.

(** The first user of [two_users], seen twice on partition 2. *)
Lemma summary_lists_each_partition_once_witness :
  ∃ ps, two_users !! "user-123" = Some ps ∧ 2%nat = length ps ∧
    NoDup [2] ∧ ∀ p, p ∈ [2] ↔ p ∈ ps.
Proof.
  apply (summary_lists_each_partition_once reverse_order two_users "user-123" 2 [2]
           range_ok_reverse).
  apply (list_elem_of_lookup_2 _ 1). reflexivity.
Defined.

(** * More on the producer's loop *)

Section ProducerMore.

Import Producer.

Variable format_RFC3339 : Z → string.
Variables (topic : string) (messageCount : Z) (events : list UserEvent) (o : RangeOrder).

Local Abbreviation in_order := (sends_in_order format_RFC3339 topic messageCount events).

(** One pass through the loop keeps the messages sent in step with the
    events, and never indexes the events out of range. *)
Lemma loop_body_in_order st ev :
  in_order st →
  match loop_body format_RFC3339 topic messageCount events o st ev with
  | Continue st' | Return st' => in_order st'
  | Panic _ => False
  | NoSuchStep => True
  end.
Proof.
  intros (Hcount & Hmax & Hsent). destruct ev as [|r|]; simpl.
  - by destruct (cancelled st).
  - destruct (Z.leb_spec messageCount (count st)) as [?|Hlt]; [done|].
    destruct (Z.leb_spec (Z.of_nat (length events)) (count st)) as [?|Hlen]; [done|].
    destruct (Z.ltb_spec (count st) 0) as [?|_]; [lia|]. simpl.
    destruct (lookup_lt_is_Some_2 events (Z.to_nat (count st))) as [event Hevent]; [lia|].
    rewrite Hevent.
    assert (Z.to_nat (count st + 1) = S (Z.to_nat (count st))) as Hnext by lia.
    destruct r; (split; [simpl; lia|]); (split; [simpl; lia|]); simpl;
      by rewrite Hnext, (take_S_r _ _ _ Hevent), fmap_app, Hsent.
  - by destruct (cancelled st).
Qed.

Lemma loop_in_order schedule : ∀ st,
  in_order st →
  in_order (loop format_RFC3339 topic messageCount events o schedule st).1 ∧
  (loop format_RFC3339 topic messageCount events o schedule st).2 ≠ Exited 2.
Proof.
  induction schedule as [|ev schedule IH]; intros st Hst; [done|].
  cbn [loop]. pose proof (loop_body_in_order st ev Hst) as Hbody.
  destruct (loop_body format_RFC3339 topic messageCount events o st ev); [by apply IH|done..].
Qed.




Hypothesis events_length : length events = Z.to_nat messageCount.

Lemma landed_nil_r rest : landed rest [] = [].
Proof. by destruct rest. Qed.

(** A schedule of ticks only: each tick sends the next event until the
    events are used up, and the tick after the last event prints the summary
    and ends the loop. *)
Lemma loop_ticks answers : ∀ st,
  0 ≤ count st ≤ Z.of_nat (length events) →
  partitionMap (loop format_RFC3339 topic messageCount events o (Tick <$> answers) st).1 =
    record_all (landed (drop (Z.to_nat (count st)) events) answers) (partitionMap st) ∧
  sent (loop format_RFC3339 topic messageCount events o (Tick <$> answers) st).1 =
    sent st ++ (message_for format_RFC3339 topic
                <$> take (length answers) (drop (Z.to_nat (count st)) events)) ∧
  (if decide (length answers ≤ length (drop (Z.to_nat (count st)) events))%nat
   then (loop format_RFC3339 topic messageCount events o (Tick <$> answers) st).2 = Waiting
   else
     (loop format_RFC3339 topic messageCount events o (Tick <$> answers) st).2 = Exited 0 ∧
     ∃ pre,
       logged (loop format_RFC3339 topic messageCount events o (Tick <$> answers) st).1 =
       pre ++
       ("Sent " +:+ fmt_d (Z.of_nat (length events)) +:+ " messages, stopping producer") ::
       showProducerPartitionSummary o
         (partitionMap (loop format_RFC3339 topic messageCount events o
                          (Tick <$> answers) st).1)).
Proof.
  induction answers as [|r answers IH]; intros st Hcount.
  { simpl. rewrite landed_nil_r, app_nil_r. by repeat split. }
  rewrite fmap_cons. cbn [loop].
  destruct (drop (Z.to_nat (count st)) events) as [|e rest] eqn:Hdrop.
  - apply drop_nil_inv in Hdrop.
    assert (count st = Z.of_nat (length events)) as Hend by lia.
    cbn [loop_body].
    destruct (Z.leb_spec (Z.of_nat (length events)) (count st)) as [_|?]; [|lia].
    rewrite orb_true_r. simpl. rewrite app_nil_r. repeat split.
    exists (logged st). by rewrite Hend.
  - assert (events !! Z.to_nat (count st) = Some e) as Hevent.
    { rewrite <- (Nat.add_0_r (Z.to_nat (count st))), <- lookup_drop. by rewrite Hdrop. }
    assert (drop (S (Z.to_nat (count st))) events = rest) as Hrest.
    { rewrite (drop_S _ _ _ Hevent) in Hdrop. by injection Hdrop. }
    assert (count st < Z.of_nat (length events)) as Hlt.
    { apply lookup_lt_Some in Hevent. lia. }
    cbn [loop_body].
    destruct (Z.leb_spec messageCount (count st)) as [?|_]; [lia|].
    destruct (Z.leb_spec (Z.of_nat (length events)) (count st)) as [?|_]; [lia|].
    destruct (Z.ltb_spec (count st) 0) as [?|_]; [lia|].
    simpl orb. cbv iota. rewrite Hevent.
    destruct r as [partition offset|err].
    + match goal with |- context [loop _ _ _ _ _ _ ?st1] =>
        destruct (IH st1) as (Hmap & Hsent & Hend); [simpl; lia|] end.
      cbn [count partitionMap sent] in Hmap, Hsent, Hend.
      replace (Z.to_nat (count st + 1)) with (S (Z.to_nat (count st))) in * by lia.
      rewrite Hrest in Hmap, Hsent, Hend.
      split; [by rewrite Hmap|]. split.
      { rewrite Hsent, <- app_assoc. done. }
      cbn [length]. destruct (decide (length answers ≤ length rest)%nat),
        (decide (S (length answers) ≤ S (length rest))%nat); (done || lia).
    + match goal with |- context [loop _ _ _ _ _ _ ?st1] =>
        destruct (IH st1) as (Hmap & Hsent & Hend); [simpl; lia|] end.
      cbn [count partitionMap sent] in Hmap, Hsent, Hend.
      replace (Z.to_nat (count st + 1)) with (S (Z.to_nat (count st))) in * by lia.
      rewrite Hrest in Hmap, Hsent, Hend.
      split; [by rewrite Hmap|]. split.
      { rewrite Hsent, <- app_assoc. done. }
      cbn [length]. destruct (decide (length answers ≤ length rest)%nat),
        (decide (S (length answers) ≤ S (length rest))%nat); (done || lia).
Qed.

End ProducerMore.

Section ProducerMain.

Import Producer.

Variable format_RFC3339 : Z → string.

(** The three ways [main] goes on after reading its configuration. *)
Lemma main_unfold w :
  main format_RFC3339 w =
  match w_connect w with
  | Some err =>
      {| run_log := producer_startup w ++
           ["Failed to create producer: failed to create producer: " +:+ err];
         run_sent := []; run_exit := Exited 1 |}
  | None =>
      if duration_mul (producer_interval_ms w) time_Millisecond <=? 0 then
        {| run_log := producer_startup w; run_sent := []; run_exit := Exited 2 |}
      else
        {| run_log := logged (producer_loop format_RFC3339 w).1;
           run_sent := sent (producer_loop format_RFC3339 w).1;
           run_exit := (producer_loop format_RFC3339 w).2 |}
  end.
Proof.
  unfold main, producer_loop, producer_events, producer_startup, producer_topic,
    producer_count, producer_interval_ms, producer_env, loop_start.
  destruct (godotenv_Load (w_env w) (w_dotenv w)) as [env loaded]. simpl.
  destruct (w_connect w); [done|].
  destruct (generateUserEvents _ _) as [events clk]. simpl.
  destruct (_ <=? 0); [done|].
  by destruct (loop _ _ _ _ _ _ _).
Qed.

Lemma loop_start_in_order topic messageCount events log :
  sends_in_order format_RFC3339 topic messageCount events (loop_start log).
Proof. unfold sends_in_order, loop_start. simpl. repeat split; lia. Qed.


End ProducerMain.

(** X10: whatever happens while it runs, the producer sends the generated
    events in their order, without a gap and without a repetition, each to
    the configured topic with the user id as key, and never more of them than
    [MESSAGE_COUNT]. *)
Theorem producer_sends_events_in_order (format_RFC3339 : Z → string) (w : Producer.World) :
  ∃ k : nat,
    Z.of_nat k ≤ Z.max 0 (producer_count w) ∧
    Producer.run_sent (Producer.main format_RFC3339 w) =
      message_for format_RFC3339 (producer_topic w) <$> take k (producer_events w) ∧
    Producer.Key <$> Producer.run_sent (Producer.main format_RFC3339 w) =
      UserID <$> take k (producer_events w).
Proof.
  rewrite main_unfold.
  destruct (Producer.w_connect w); [exists 0%nat; split; [lia|done]|].
  destruct (_ <=? 0); [exists 0%nat; split; [lia|done]|]. simpl.
  destruct (loop_in_order format_RFC3339 (producer_topic w) (producer_count w)
              (producer_events w) (Producer.w_order w) (Producer.w_schedule w)
              (loop_start (producer_startup w))
              (loop_start_in_order _ _ _ _ _)) as [(Hcount & Hmax & Hsent) _].
  fold (producer_loop format_RFC3339 w) in Hcount, Hmax, Hsent.
  exists (Z.to_nat (Producer.count (producer_loop format_RFC3339 w).1)).
  split; [lia|]. split; [done|].
  rewrite Hsent, <- list_fmap_compose. by apply list_fmap_ext.
Qed.





(** X13: what the producer's record holds after any number of ticks: for each
    user the partitions of that user's successful sends, oldest first, and no
    entry for a user none of whose sends succeeded; a failed send leaves no
    trace in it. The record holds as many partitions as sends succeeded. *)
Theorem producer_record_is_successful_sends (format_RFC3339 : Z → string)
    (topic : string) (messageCount : Z) (events : list UserEvent) (o : RangeOrder)
    (answers : list Producer.SendResult) (log : list string) (key : string) :
  length events = Z.to_nat messageCount →
  Producer.partitionMap
    (Producer.loop format_RFC3339 topic messageCount events o
       (Producer.Tick <$> answers) (loop_start log)).1 !! key =
    match partitions_of key (landed events answers) with
    | [] => None
    | partitions => Some partitions
    end ∧
  total (Producer.partitionMap
           (Producer.loop format_RFC3339 topic messageCount events o
              (Producer.Tick <$> answers) (loop_start log)).1) =
    length (landed events answers).
Proof.
  intros Hlen.
  destruct (loop_ticks format_RFC3339 topic messageCount events o Hlen answers
              (loop_start log)) as (Hmap & _); [simpl; lia|].
  change (Z.to_nat (Producer.count (loop_start log))) with 0%nat in Hmap.
  rewrite drop_0 in Hmap. rewrite Hmap.
  change (Producer.partitionMap (loop_start log)) with (∅ : gmap string (list Z)).
  split; [apply record_all_empty_lookup|].
  rewrite total_record_all. unfold total. rewrite map_to_list_empty. simpl. lia.
Qed.

(** The second user in the five-message run: the send that failed was the
    second user's, the one that succeeded landed on partition 0. *)
Lemma producer_record_is_successful_sends_witness :
  Producer.partitionMap
    (Producer.loop format_nanos "test-topic" 5 five_events listing_order
       (Producer.Tick <$> completed_answers) (loop_start [])).1 !! "user-456" =
    match partitions_of "user-456" (landed five_events completed_answers) with
    | [] => None
    | partitions => Some partitions
    end ∧
  total (Producer.partitionMap
           (Producer.loop format_nanos "test-topic" 5 five_events listing_order
              (Producer.Tick <$> completed_answers) (loop_start [])).1) =
    length (landed five_events completed_answers).
Proof.
  apply (producer_record_is_successful_sends format_nanos "test-topic" 5 five_events
           listing_order completed_answers [] "user-456").
  reflexivity.
Defined.

(** In that run the second user's entry is partition 0 alone. *)
Example second_user_partitions :
  partitions_of "user-456" (landed five_events completed_answers) = [0].
Proof. reflexivity. Qed.

(** * More on the consumer's loop *)

Section ClaimMore.

Import Consumer.

Variable o : RangeOrder.

(** One call of [ConsumeClaim], from any state of its local variables, as
    long as the message counter does not wrap. *)
Lemma claim_loop_spec selects : ∀ st,
  0 ≤ messageCount st →
  messageCount st + Z.of_nat (length (received selects)) < 2 ^ 63 →
  (claim_loop o selects st).1.1.2 = received selects ∧
  (claim_loop o selects st).2 = ended selects ∧
  partitionMap (claim_loop o selects st).1.2 =
    record_all (observed <$> received selects) (partitionMap st) ∧
  messageCount (claim_loop o selects st).1.2 =
    messageCount st + Z.of_nat (length (received selects)) ∧
  (claim_loop o selects st).1.1.1 =
    receipts (messageCount st) (received selects) ++
    (if ended selects && negb (summaryShown st) &&
        (0 <? Z.of_nat (size (partitionMap (claim_loop o selects st).1.2)))
     then showPartitionSummary o (partitionMap (claim_loop o selects st).1.2)
     else []).
Proof.
  induction selects as [|sel selects IH]; intros st Hcount Hbound.
  { simpl. rewrite Z.add_0_r. by repeat split. }
  destruct sel as [[m|]|].
  - cbn [claim_loop claim_body received ended length] in *.
    assert (wrap64 (messageCount st + 1) = messageCount st + 1) as Hwrap.
    { unfold wrap64. rewrite Z.mod_small; lia. }
    rewrite Hwrap.
    match goal with |- context [claim_loop o selects ?st1] =>
      destruct (IH st1) as (Hmarked & Hended & Hmap & Hcounter & Hlines);
        [simpl; lia..|];
      destruct (claim_loop o selects st1) as [[[ls ms] final] returned]
    end.
    cbn [fst snd partitionMap messageCount summaryShown] in *.
    rewrite fmap_cons. subst ms returned.
    split; [done|]. split; [done|]. split; [by rewrite Hmap|].
    split; [lia|]. by rewrite Hlines.
  - cbn [claim_loop claim_body received ended length receipts]. simpl.
    unfold show_once_and_return.
    destruct (negb (summaryShown st) && (0 <? Z.of_nat (size (partitionMap st)))) eqn:Hshow;
      simpl; rewrite ?Z.add_0_r; by rewrite ?Hshow.
  - cbn [claim_loop claim_body received ended length receipts]. simpl.
    unfold show_once_and_return.
    destruct (negb (summaryShown st) && (0 <? Z.of_nat (size (partitionMap st)))) eqn:Hshow;
      simpl; rewrite ?Z.add_0_r; by rewrite ?Hshow.
Qed.

(** A record is empty only when nothing has been observed. *)
Lemma record_all_size (pairs : list (string * Z)) :
  (0 <? Z.of_nat (size (record_all pairs ∅))) = negb (bool_decide (pairs = [])).
Proof.
  destruct pairs as [|[k p] pairs]; [done|].
  rewrite bool_decide_eq_false_2 by done. simpl negb.
  apply Z.ltb_lt.
  assert (record_all ((k, p) :: pairs) ∅ ≠ ∅) as Hne.
  { intros Hempty.
    pose proof (record_all_empty_lookup ((k, p) :: pairs) k) as Hk.
    rewrite Hempty, lookup_empty, partitions_of_cons in Hk.
    by destruct (decide (k = k)). }
  apply map_size_non_empty_iff in Hne. lia.
Qed.

End ClaimMore.

(** X14: a call of [ConsumeClaim] marks every message it is handed before
    its channel is closed or its session is done, in the order received, and
    nothing after; it numbers them 1, 2, ... in its log; and it returns
    exactly when the channel is closed or the session is done. *)
Theorem ConsumeClaim_marks_what_it_receives (o : RangeOrder)
    (selects : list Consumer.Select) :
  Z.of_nat (length (received selects)) < 2 ^ 63 →
  (Consumer.ConsumeClaim o selects).1.1.2 = received selects ∧
  (Consumer.ConsumeClaim o selects).2 = ended selects ∧
  Consumer.messageCount (Consumer.ConsumeClaim o selects).1.2 =
    Z.of_nat (length (received selects)) ∧
  take (length (received selects)) (Consumer.ConsumeClaim o selects).1.1.1 =
    receipts 0 (received selects).
Proof.
  intros Hbound. unfold Consumer.ConsumeClaim.
  destruct (claim_loop_spec o selects Consumer.claim_start)
    as (Hmarked & Hended & _ & Hcounter & Hlines); [done|simpl; lia|].
  split; [done|]. split; [done|]. split; [done|].
  rewrite Hlines.
  assert (∀ n ms, length (receipts n ms) = length ms) as Hlen.
  { intros n ms. revert n. induction ms as [|m ms IH]; intros n; simpl; by rewrite ?IH. }
  apply take_app_length'. by rewrite Hlen.
Qed.

(** Three messages, then the channel is closed; what the schedule holds
    after that is not received. *)
Lemma ConsumeClaim_marks_what_it_receives_witness :
  (Consumer.ConsumeClaim listing_order three_then_closed).1.1.2 =
    received three_then_closed ∧
  (Consumer.ConsumeClaim listing_order three_then_closed).2 = ended three_then_closed ∧
  Consumer.messageCount (Consumer.ConsumeClaim listing_order three_then_closed).1.2 =
    Z.of_nat (length (received three_then_closed)) ∧
  take (length (received three_then_closed))
       (Consumer.ConsumeClaim listing_order three_then_closed).1.1.1 =
    receipts 0 (received three_then_closed).
Proof.
  apply (ConsumeClaim_marks_what_it_receives listing_order three_then_closed).
  by vm_compute.
Defined.

Example three_then_closed_received :
  received three_then_closed =
    [message "user-123" 2 0; message "user-456" 0 0; message "user-123" 2 1] ∧
  ended three_then_closed = true.
Proof. by split. Qed.

(** X15: the record of a call of [ConsumeClaim] holds, for each key, the
    partitions of the messages received with that key, oldest first, and no
    entry for a key that was not received; so the message counts of the
    summary it prints add up to the number of messages the call received. *)
Theorem ConsumeClaim_record_is_what_it_received (o : RangeOrder)
    (selects : list Consumer.Select) (key : string) :
  Z.of_nat (length (received selects)) < 2 ^ 63 →
  Consumer.partitionMap (Consumer.ConsumeClaim o selects).1.2 !! key =
    match partitions_of key (observed <$> received selects) with
    | [] => None
    | partitions => Some partitions
    end ∧
  (range_ok o →
   total_reported o (Consumer.partitionMap (Consumer.ConsumeClaim o selects).1.2) =
     length (received selects)).
Proof.
  intros Hbound. unfold Consumer.ConsumeClaim.
  destruct (claim_loop_spec o selects Consumer.claim_start)
    as (_ & _ & Hmap & _); [done|simpl; lia|].
  rewrite Hmap. simpl. split; [apply record_all_empty_lookup|].
  intros Ho. rewrite total_reported_total, total_record_all, length_fmap by done.
  unfold total. rewrite map_to_list_empty. simpl. lia.
Qed.

(** The first user in [three_then_closed]: partition 2, twice. *)
Lemma ConsumeClaim_record_is_what_it_received_witness :
  Consumer.partitionMap (Consumer.ConsumeClaim reverse_order three_then_closed).1.2
    !! "user-123" =
    match partitions_of "user-123" (observed <$> received three_then_closed) with
    | [] => None
    | partitions => Some partitions
    end ∧
  (range_ok reverse_order →
   total_reported reverse_order
     (Consumer.partitionMap (Consumer.ConsumeClaim reverse_order three_then_closed).1.2) =
     length (received three_then_closed)).
Proof.
  apply (ConsumeClaim_record_is_what_it_received reverse_order three_then_closed "user-123").
  by vm_compute.
Defined.

(** X16: a call of [ConsumeClaim] logs one line per message received and,
    when it returns, the summary of its record, unless it has received
    nothing: a claim that ends without a message prints no summary, and a
    claim that has not ended has printed none. *)
Theorem ConsumeClaim_summary_only_after_a_message (o : RangeOrder)
    (selects : list Consumer.Select) :
  Z.of_nat (length (received selects)) < 2 ^ 63 →
  (Consumer.ConsumeClaim o selects).1.1.1 =
    receipts 0 (received selects) ++
    (if ended selects && negb (bool_decide (received selects = []))
     then Consumer.showPartitionSummary o
            (Consumer.partitionMap (Consumer.ConsumeClaim o selects).1.2)
     else []).
Proof.
  intros Hbound. unfold Consumer.ConsumeClaim.
  destruct (claim_loop_spec o selects Consumer.claim_start)
    as (_ & _ & Hmap & _ & Hlines); [done|simpl; lia|].
  rewrite Hlines. f_equal. rewrite Hmap. simpl Consumer.partitionMap at 1.
  rewrite record_all_size. simpl Consumer.summaryShown. rewrite andb_true_r.
  destruct (received selects); by rewrite ?andb_false_r.
Qed.

(** A claim whose channel is closed before any message logs nothing. *)
Lemma ConsumeClaim_summary_only_after_a_message_witness :
  (Consumer.ConsumeClaim listing_order closed_at_once).1.1.1 =
    receipts 0 (received closed_at_once) ++
    (if ended closed_at_once && negb (bool_decide (received closed_at_once = []))
     then Consumer.showPartitionSummary listing_order
            (Consumer.partitionMap (Consumer.ConsumeClaim listing_order closed_at_once).1.2)
     else []).
Proof.
  apply (ConsumeClaim_summary_only_after_a_message listing_order closed_at_once).
  by vm_compute.
Defined.

Example closed_at_once_logs_nothing :
  (Consumer.ConsumeClaim listing_order closed_at_once).1.1.1 = [].
Proof. reflexivity. Qed.

Section ConsumeMore.

Import Consumer.

Variables (topic groupID : string).

(** The context is cancelled by a signal and by nothing else. *)
Lemma session_cancelled_by_signal order schedule : ∀ ss,
  cancelled (foldl (session_step order) ss schedule) = true →
  cancelled ss = true ∨ Signal ∈ schedule.
Proof.
  induction schedule as [|ev schedule IH]; intros ss Hc; [by left|].
  simpl in Hc. apply IH in Hc as [Hc|Hin]; [|right; by right].
  destruct ev as [i sel|]; [|right; by left].
  left. simpl in Hc. destruct (claims ss !! i) as [[st|]|]; [|done..].
  by destruct (claim_body (order i) st sel).
Qed.

(** [Consume] returns with the error of a session, wrapped, or with the
    error of the cancelled context, and the context is cancelled only by a
    signal that arrived during a session. *)
Lemma Consume_returns sessions : ∀ log mk err,
  (Consume topic groupID sessions false log mk).2 = Some err →
  (∃ s e, s ∈ sessions ∧ s_err s = Some e ∧ err = "error from consumer: " +:+ e) ∨
  (err = "context canceled" ∧ ∃ s, s ∈ sessions ∧ Signal ∈ s_schedule s).
Proof.
  induction sessions as [|s sessions IH]; intros log mk err; [done|].
  cbn [Consume]. unfold run_session.
  set (ss := foldl (session_step (s_order s)) _ (s_schedule s)).
  pose proof (session_cancelled_by_signal (s_order s) (s_schedule s) _ : 
                cancelled ss = true → _) as Hsignal.
  destruct (forallb _ (claims ss)); [|done].
  destruct (s_err s) as [e|] eqn:Herr.
  - intros [= <-]. left. exists s, e. split; [by left|done].
  - simpl. destruct (cancelled ss) eqn:Hc.
    + intros [= <-]. right. split; [done|]. exists s. split; [by left|].
      by destruct Hsignal as [?|?].
    + intros Hrest. apply IH in Hrest as [(s' & e & Hin & He & ->)|[-> (s' & Hin & Hsig)]].
      * left. exists s', e. split; [by right|done].
      * right. split; [done|]. exists s'. split; [by right|done].
Qed.

End ConsumeMore.

(** X17: a consumer process that ends, ends with status 1, in [log.Fatalf]:
    because the connection failed, because the library returned an error
    from a session, or because the context was cancelled, which only a
    signal during a session does. A shutdown by signal is thus logged as the
    error [context canceled]. *)
Theorem consumer_exit_status (w : Consumer.World) :
  (∀ err, Consumer.w_connect w = Some err →
     Consumer.run_exit (Consumer.main w) = Exited 1 ∧
     Consumer.run_marked (Consumer.main w) = [] ∧
     last (Consumer.run_log (Consumer.main w)) =
       Some ("Failed to create consumer: failed to create consumer: " +:+ err)) ∧
  (Consumer.w_connect w = None →
   ∀ code, Consumer.run_exit (Consumer.main w) = Exited code →
     code = 1 ∧
     ∃ err,
       last (Consumer.run_log (Consumer.main w)) =
         Some ("Error consuming messages: " +:+ err) ∧
       ((∃ s e, s ∈ Consumer.w_sessions w ∧ Consumer.s_err s = Some e ∧
                err = "error from consumer: " +:+ e) ∨
        (err = "context canceled" ∧
         ∃ s, s ∈ Consumer.w_sessions w ∧ Consumer.Signal ∈ Consumer.s_schedule s))).
Proof.
  unfold Consumer.main.
  destruct (godotenv_Load (Consumer.w_env w) (Consumer.w_dotenv w)) as [env loaded].
  split.
  - intros err ->. simpl. by rewrite last_snoc.
  - intros ->.
    match goal with |- context [Consumer.Consume ?t ?g ?ss false ?l ?m] =>
      pose proof (Consume_returns t g ss l m) as Hreturns;
      destruct (Consumer.Consume t g ss false l m) as [[lg mk] [err|]]
    end; [|done].
    simpl. intros code [= <-]. split; [done|]. exists err.
    split; [by rewrite last_snoc|]. by apply Hreturns.
Qed.

(** A consumer that cannot connect, and the consumer of [four_messages_world],
    which is interrupted. *)
Lemma consumer_exit_status_witness :
  (Consumer.run_exit (Consumer.main unreachable_consumer) = Exited 1 ∧
   Consumer.run_marked (Consumer.main unreachable_consumer) = [] ∧
   last (Consumer.run_log (Consumer.main unreachable_consumer)) =
     Some ("Failed to create consumer: failed to create consumer: " +:+
           "kafka: client has run out of available brokers")) ∧
  (1 = 1 ∧
   ∃ err,
     last (Consumer.run_log (Consumer.main four_messages_world)) =
       Some ("Error consuming messages: " +:+ err) ∧
     ((∃ s e, s ∈ Consumer.w_sessions four_messages_world ∧ Consumer.s_err s = Some e ∧
              err = "error from consumer: " +:+ e) ∨
      (err = "context canceled" ∧
       ∃ s, s ∈ Consumer.w_sessions four_messages_world ∧
            Consumer.Signal ∈ Consumer.s_schedule s))).
Proof.
  split.
  - by apply (proj1 (consumer_exit_status unreachable_consumer)).
  - apply (proj2 (consumer_exit_status four_messages_world) eq_refl 1). reflexivity.
Defined.


